(** * run_batch.py: resumable batch runner, its ledger and its prompt cache

    A shallow embedding of [src/run_batch.py].  Python [str] values are
    sequences of Unicode code points, Python [int]s are [Z], the two files
    (prompt cache, result ledger) are an optional text each ([None] when the
    path does not exist), and the calls to the completion service are an
    oracle whose answers, exceptions included, drive the loop. *)

From Stdlib Require Import String Ascii List ZArith NArith Lia Bool.
Import ListNotations.

Local Open Scope Z_scope.

(** ** Python strings *)

Module Py.

(** A [str] is a list of code points. *)
#[warnings="-notation-for-abbreviation"]
Notation pystr := (list N) (only parsing).

(** The code points of an ASCII literal. *)
Definition str (s : string) : pystr := map N_of_ascii (list_ascii_of_string s).

Definition NL : N := 10%N.

(** [str.isspace] on one character: the Unicode white space characters. *)
Definition isspace (c : N) : bool :=
  ((9 <=? c) && (c <=? 13) || (28 <=? c) && (c <=? 32)
   || (c =? 133) || (c =? 160) || (c =? 5760)
   || (8192 <=? c) && (c <=? 8202)
   || (c =? 8232) || (c =? 8233) || (c =? 8239) || (c =? 8287)
   || (c =? 12288))%N.

Fixpoint lstrip (s : pystr) : pystr :=
  match s with
  | [] => []
  | c :: t => if isspace c then lstrip t else s
  end.

Definition rstrip (s : pystr) : pystr := rev (lstrip (rev s)).

(** [s.strip()] *)
Definition strip (s : pystr) : pystr := lstrip (rstrip s).

(** Truth value of a string or list: non-empty. *)
Definition truthy {A} (l : list A) : bool :=
  match l with [] => false | _ :: _ => true end.

(** [s.replace("\n", " ")] *)
Definition replace_newlines (s : pystr) : pystr :=
  map (fun c => if (c =? NL)%N then 32%N else c) s.

(** [l[lo:hi]] with Python's treatment of negative and out-of-range bounds. *)
Definition slice_bound (len i : Z) : Z :=
  if i <? 0 then Z.max 0 (i + len) else Z.min i len.

Definition slice {A} (l : list A) (lo hi : Z) : list A :=
  let len := Z.of_nat (length l) in
  let lo' := slice_bound len lo in
  let hi' := slice_bound len hi in
  firstn (Z.to_nat (hi' - lo')) (skipn (Z.to_nat lo') l).

(** [enumerate(l)], with the counter starting at [n]. *)
Fixpoint enumerate_from {A} (n : nat) (l : list A) : list (nat * A) :=
  match l with
  | [] => []
  | x :: t => (n, x) :: enumerate_from (S n) t
  end.

Definition enumerate {A} (l : list A) : list (nat * A) := enumerate_from 0 l.

(** Iterating over a text file: the lines, each with its terminating newline,
    the last one possibly without.  The text is what the file object
    delivers, that is after universal-newline translation. *)
Fixpoint readlines_from (cur : pystr) (s : pystr) : list pystr :=
  match s with
  | [] => match cur with [] => [] | _ => [rev cur] end
  | c :: t =>
      if (c =? NL)%N then rev (c :: cur) :: readlines_from [] t
      else readlines_from (c :: cur) t
  end.

Definition readlines (s : pystr) : list pystr := readlines_from [] s.

(** [sum(1 for x in l)] *)
Definition sum_ones {A} (l : list A) : Z :=
  fold_left (fun acc _ => acc + 1) l 0.

End Py.

(** ** JSON values, [json.dumps] and [json.loads] *)

Module Json.
Import Py.

#[warnings="-register-all"]
Inductive json :=
| JNull
| JBool (b : bool)
| JNumber (lexeme : pystr)
| JString (s : pystr)
| JArray (items : list json)
| JObject (members : list (pystr * json)).

(** *** [json.dumps] with its defaults ([ensure_ascii=True], separators
    [", "] and [": "]). *)

Definition hex_digit (d : N) : N :=
  (if d <? 10 then 48 + d else 87 + d)%N.

(** ["\\u{0:04x}"] *)
Definition u_escape (n : N) : pystr :=
  [92; 117;
   hex_digit (N.land (N.shiftr n 12) 15); hex_digit (N.land (N.shiftr n 8) 15);
   hex_digit (N.land (N.shiftr n 4) 15); hex_digit (N.land n 15)]%N.

(** The replacement of one character in [py_encode_basestring_ascii]:
    printable ASCII other than the quote and the backslash is kept. *)
Definition escape_char (c : N) : pystr :=
  (if c =? 34 then [92; 34]
   else if c =? 92 then [92; 92]
   else if (32 <=? c) && (c <=? 126) then [c]
   else if c =? 10 then [92; 110]
   else if c =? 13 then [92; 114]
   else if c =? 9 then [92; 116]
   else if c =? 8 then [92; 98]
   else if c =? 12 then [92; 102]
   else if c <? 65536 then u_escape c
   else
     let n := c - 65536 in
     u_escape (N.lor 55296 (N.land (N.shiftr n 10) 1023))
       ++ u_escape (N.lor 56320 (N.land n 1023)))%N.

Definition dumps_string (s : pystr) : pystr :=
  34%N :: flat_map escape_char s ++ [34%N].

Fixpoint join (sep : pystr) (parts : list pystr) : pystr :=
  match parts with
  | [] => []
  | [p] => p
  | p :: rest => p ++ sep ++ join sep rest
  end.

Fixpoint dumps (v : json) : pystr :=
  match v with
  | JNull => str "null"
  | JBool true => str "true"
  | JBool false => str "false"
  | JNumber lexeme => lexeme
  | JString s => dumps_string s
  | JArray items =>
      91%N :: join (str ", ") (map dumps items) ++ [93%N]
  | JObject members =>
      123%N ::
        join (str ", ")
          (map (fun kv => dumps_string (fst kv) ++ str ": " ++ dumps (snd kv))
             members)
        ++ [125%N]
  end.

(** *** [json.loads]

    A recursive-descent reader after the scanner of the [json] module.
    The four results are: a value with the unread rest of the text, a
    [JSONDecodeError], a nesting deeper than the interpreter allows
    ([RecursionError]) and an integer literal longer than the interpreter
    converts ([ValueError]). *)

Inductive pres (A : Type) :=
| POk (a : A) (rest : pystr)
| PErr
| PDeep
| PValue.
Arguments POk {A} a rest.
Arguments PErr {A}.
Arguments PDeep {A}.
Arguments PValue {A}.

(** The two limits of the interpreter that the scanner meets.  The scanner
    enters a recursive call for each object or array it opens, and the
    interpreter raises [RecursionError] when too many are open at once; any
    interpreter that runs the program lets it open one, and [nesting] is the
    number of containers that may be open inside the outermost one (near a
    thousand with the default recursion limit, less the frames already on
    the stack).  An integer literal is converted by [int], which raises
    [ValueError] when it has more than [sys.get_int_max_str_digits()]
    digits (4300 by default; 0 lifts the limit). *)
Record interpreter := { nesting : nat; int_max_str_digits : nat }.

Definition cpython_defaults : interpreter :=
  {| nesting := 990; int_max_str_digits := 4300 |}.

Definition is_ws (c : N) : bool :=
  ((c =? 32) || (c =? 9) || (c =? 10) || (c =? 13))%N.

Fixpoint skip_ws (s : pystr) : pystr :=
  match s with
  | [] => []
  | c :: t => if is_ws c then skip_ws t else s
  end.

Definition is_digit (c : N) : bool := ((48 <=? c) && (c <=? 57))%N.

Definition hex_value (c : N) : option N :=
  (if (48 <=? c) && (c <=? 57) then Some (c - 48)
   else if (97 <=? c) && (c <=? 102) then Some (c - 87)
   else if (65 <=? c) && (c <=? 70) then Some (c - 55)
   else None)%N.

Definition hex4 (a b c d : N) : option N :=
  match hex_value a, hex_value b, hex_value c, hex_value d with
  | Some x, Some y, Some z, Some w => Some (((x * 16 + y) * 16 + z) * 16 + w)%N
  | _, _, _, _ => None
  end.

Definition is_high_surrogate (u : N) : bool := ((55296 <=? u) && (u <=? 56319))%N.
Definition is_low_surrogate (u : N) : bool := ((56320 <=? u) && (u <=? 57343))%N.

Definition join_surrogates (hi lo : N) : N :=
  (65536 + ((hi - 55296) * 1024 + (lo - 56320)))%N.

Definition simple_escape (e : N) : option N :=
  (if e =? 34 then Some 34 else if e =? 92 then Some 92
   else if e =? 47 then Some 47 else if e =? 98 then Some 8
   else if e =? 102 then Some 12 else if e =? 110 then Some 10
   else if e =? 114 then Some 13 else if e =? 116 then Some 9
   else None)%N.

(** [scanstring] in strict mode, from just after the opening quote; [acc] is
    the text decoded so far, reversed. *)
Fixpoint scanstring (s : pystr) (acc : pystr) {struct s} : pres pystr :=
  match s with
  | [] => PErr
  | c :: t =>
      if (c =? 34)%N then POk (rev acc) t
      else if (c =? 92)%N then
        match t with
        | [] => PErr
        | e :: t1 =>
            if (e =? 117)%N then
              match t1 with
              | h1 :: h2 :: h3 :: h4 :: t2 =>
                  match hex4 h1 h2 h3 h4 with
                  | None => PErr
                  | Some u =>
                      if is_high_surrogate u then
                        match t2 with
                        | b :: t3 =>
                            match t3 with
                            | v :: t4 =>
                                if ((b =? 92) && (v =? 117))%N then
                                  match t4 with
                                  | g1 :: g2 :: g3 :: g4 :: t5 =>
                                      match hex4 g1 g2 g3 g4 with
                                      | None => PErr
                                      | Some u2 =>
                                          if is_low_surrogate u2
                                          then scanstring t5 (join_surrogates u u2 :: acc)
                                          else scanstring t2 (u :: acc)
                                      end
                                  | _ => PErr
                                  end
                                else scanstring t2 (u :: acc)
                            | [] => scanstring t2 (u :: acc)
                            end
                        | [] => PErr
                        end
                      else scanstring t2 (u :: acc)
                  end
              | _ => PErr
              end
            else
              match simple_escape e with
              | Some d => scanstring t1 (d :: acc)
              | None => PErr
              end
        end
      else if (c <=? 31)%N then PErr
      else scanstring t (c :: acc)
  end.

Fixpoint span_digits (s : pystr) : pystr * pystr :=
  match s with
  | c :: t =>
      if is_digit c then let (ds, r) := span_digits t in (c :: ds, r)
      else ([], s)
  | [] => ([], [])
  end.

(** The number lexeme at the head of [s], after [_match_number]. *)
Definition match_number (s : pystr) : option (pystr * pystr) :=
  let (sign, s1) :=
    match s with
    | c :: t => if (c =? 45)%N then ([c], t) else ([], s)
    | [] => ([], s)
    end in
  match s1 with
  | [] => None
  | d :: t =>
      let int_part :=
        if (d =? 48)%N then Some ([d], t)
        else if is_digit d then let (ds, r) := span_digits t in Some (d :: ds, r)
        else None in
      match int_part with
      | None => None
      | Some (ip, s2) =>
          let (frac, s3) :=
            match s2 with
            | p :: f :: _ =>
                if ((p =? 46)%N && is_digit f)%bool
                then let (ds, r) := span_digits (tl s2) in (p :: ds, r)
                else ([], s2)
            | _ => ([], s2)
            end in
          let (expo, s4) :=
            match s3 with
            | e :: t3 =>
                if ((e =? 101) || (e =? 69))%N then
                  let (sg, t4) :=
                    match t3 with
                    | g :: t4 =>
                        if ((g =? 45) || (g =? 43))%N then ([g], t4) else ([], t3)
                    | [] => ([], t3)
                    end in
                  let (ds, r) := span_digits t4 in
                  match ds with
                  | [] => ([], s3)
                  | _ => (e :: sg ++ ds, r)
                  end
                else ([], s3)
            | [] => ([], s3)
            end in
          Some (sign ++ ip ++ frac ++ expo, s4)
      end
  end.

Fixpoint starts_with (p s : pystr) : option pystr :=
  match p, s with
  | [], _ => Some s
  | a :: p', b :: s' => if (a =? b)%N then starts_with p' s' else None
  | _ :: _, [] => None
  end.

(** Whether [int] refuses a number lexeme: it has no fraction and no
    exponent, and more digits than the limit. *)
Definition int_too_long (py : interpreter) (lexeme : pystr) : bool :=
  forallb (fun c => is_digit c || (c =? 45)%N) lexeme
  && (0 <? int_max_str_digits py)%nat
  && (int_max_str_digits py <? length (filter is_digit lexeme))%nat.

(** [scan_once] and the object and array readers.  [fuel] bounds the number
    of steps and [depth] is the number of containers that may still be
    opened. *)
Fixpoint scan_once (py : interpreter) (fuel depth : nat) (s : pystr)
    {struct fuel} : pres json :=
  match fuel with
  | O => PDeep
  | S f =>
      match s with
      | [] => PErr
      | c :: t =>
          if (c =? 34)%N then
            match scanstring t [] with
            | POk x r => POk (JString x) r
            | PErr => PErr
            | PDeep => PDeep
            | PValue => PValue
            end
          else if (c =? 123)%N then
            match depth with
            | O => PDeep
            | S d =>
                match skip_ws t with
                | c1 :: t1 =>
                    if (c1 =? 125)%N then POk (JObject []) t1
                    else
                      match parse_members py f d (c1 :: t1) with
                      | POk ms r => POk (JObject ms) r
                      | PErr => PErr
                      | PDeep => PDeep
                      | PValue => PValue
                      end
                | [] => PErr
                end
            end
          else if (c =? 91)%N then
            match depth with
            | O => PDeep
            | S d =>
                match skip_ws t with
                | c1 :: t1 =>
                    if (c1 =? 93)%N then POk (JArray []) t1
                    else
                      match parse_items py f d (c1 :: t1) with
                      | POk xs r => POk (JArray xs) r
                      | PErr => PErr
                      | PDeep => PDeep
                      | PValue => PValue
                      end
                | [] => PErr
                end
            end
          else
            match starts_with (str "null") s with
            | Some r => POk JNull r
            | None =>
            match starts_with (str "true") s with
            | Some r => POk (JBool true) r
            | None =>
            match starts_with (str "false") s with
            | Some r => POk (JBool false) r
            | None =>
            match starts_with (str "NaN") s with
            | Some r => POk (JNumber (str "NaN")) r
            | None =>
            match starts_with (str "Infinity") s with
            | Some r => POk (JNumber (str "Infinity")) r
            | None =>
            match starts_with (str "-Infinity") s with
            | Some r => POk (JNumber (str "-Infinity")) r
            | None =>
            match match_number s with
            | Some (lexeme, r) =>
                if int_too_long py lexeme then PValue
                else POk (JNumber lexeme) r
            | None => PErr
            end end end end end end end
      end
  end

(** The members of a non-empty object, from the quote of the first key. *)
with parse_members (py : interpreter) (fuel depth : nat) (s : pystr)
    {struct fuel} : pres (list (pystr * json)) :=
  match fuel with
  | O => PDeep
  | S f =>
      match s with
      | q :: t =>
          if (q =? 34)%N then
            match scanstring t [] with
            | POk key r =>
                match skip_ws r with
                | colon :: r1 =>
                    if (colon =? 58)%N then
                      match scan_once py f depth (skip_ws r1) with
                      | POk v r2 =>
                          match skip_ws r2 with
                          | c :: r3 =>
                              if (c =? 125)%N then POk [(key, v)] r3
                              else if (c =? 44)%N then
                                match parse_members py f depth (skip_ws r3) with
                                | POk ms r4 => POk ((key, v) :: ms) r4
                                | PErr => PErr
                                | PDeep => PDeep
                                | PValue => PValue
                                end
                              else PErr
                          | [] => PErr
                          end
                      | PErr => PErr
                      | PDeep => PDeep
                      | PValue => PValue
                      end
                    else PErr
                | [] => PErr
                end
            | PErr => PErr
            | PDeep => PDeep
            | PValue => PValue
            end
          else PErr
      | [] => PErr
      end
  end

(** The items of a non-empty array, from the first character of the first. *)
with parse_items (py : interpreter) (fuel depth : nat) (s : pystr)
    {struct fuel} : pres (list json) :=
  match fuel with
  | O => PDeep
  | S f =>
      match scan_once py f depth s with
      | POk v r =>
          match skip_ws r with
          | c :: r1 =>
              if (c =? 93)%N then POk [v] r1
              else if (c =? 44)%N then
                match parse_items py f depth (skip_ws r1) with
                | POk xs r2 => POk (v :: xs) r2
                | PErr => PErr
                | PDeep => PDeep
                | PValue => PValue
                end
              else PErr
          | [] => PErr
          end
      | PErr => PErr
      | PDeep => PDeep
      | PValue => PValue
      end
  end.

(** [json.loads(s)]: one value, white space around it, nothing else.  The
    fuel grows with the text, two units for each character, more than the
    steps the scanner takes on it. *)
Definition loads (py : interpreter) (s : pystr) : pres json :=
  match scan_once py (2 * length s + 2) (S (nesting py)) (skip_ws s) with
  | POk v r =>
      match skip_ws r with
      | [] => POk v []
      | _ :: _ => PErr
      end
  | PErr => PErr
  | PDeep => PDeep
  | PValue => PValue
  end.

End Json.


(** ** The batch runner *)

Module Batch.
Import Py Json.

(** *** Files *)

(** A path of the file system: [None] when nothing exists there, otherwise
    the text of the file. *)
Definition file := option pystr.

(** The condition [if line.strip()]. *)
Definition nonblank (line : pystr) : bool := truthy (strip line).

(** [count_existing_results(results_path)]: the file after the call and the
    returned count. *)
Definition count_existing_results (results_path : file) : file * Z :=
  match results_path with
  | None => (Some [], 0)
  | Some text => (Some text, sum_ones (filter nonblank (readlines text)))
  end.

(** *** Prompt cache *)

Inductive exn :=
| JSONDecodeError
| KeyError
| TypeError
| RecursionError
| ValueError.

(** [d[key]] on a decoded JSON value: a [dict] keeps the last of several
    equal keys; nothing else can be subscripted by a [str]. *)
Fixpoint dict_get (key : pystr) (members : list (pystr * json)) : option json :=
  match members with
  | [] => None
  | (k, v) :: rest =>
      match dict_get key rest with
      | Some v' => Some v'
      | None => if list_eq_dec N.eq_dec k key then Some v else None
      end
  end.

Definition subscript (v : json) (key : pystr) : exn + json :=
  match v with
  | JObject members =>
      match dict_get key members with
      | Some x => inr x
      | None => inl KeyError
      end
  | _ => inl TypeError
  end.

(** [json.loads(line)["prompt"]] *)
Definition cache_record (py : interpreter) (line : pystr) : exn + json :=
  match loads py line with
  | POk v _ => subscript v (str "prompt")
  | PErr => inl JSONDecodeError
  | PDeep => inl RecursionError
  | PValue => inl ValueError
  end.

(** The list comprehension over the cache file: the first exception ends it
    and nothing of the list built so far survives. *)
Fixpoint read_cache (py : interpreter) (lines : list pystr)
  : exn + list json :=
  match lines with
  | [] => inr []
  | line :: rest =>
      if nonblank line then
        match cache_record py line with
        | inl e => inl e
        | inr p =>
            match read_cache py rest with
            | inl e => inl e
            | inr ps => inr (p :: ps)
            end
        end
      else read_cache py rest
  end.

(** The cache file written after a fetch. *)
Definition cache_text (prompts : list pystr) : pystr :=
  concat (map (fun prompt =>
                 dumps (JObject [(str "prompt", JString prompt)]) ++ [NL])
              prompts).

(** The path taken after the cache has been found missing or invalid;
    [dataset] is the column of prompts the upstream loader returns. *)
Definition fetch_prompts (dataset : list pystr) : file * (exn + list json) :=
  (Some (cache_text dataset), inr (map JString dataset)).

(** [load_prompts(cache_path)]: the cache file after the call, and the
    returned list or the exception that leaves the function. *)
Definition load_prompts (py : interpreter) (dataset : list pystr)
    (cache_path : file) : file * (exn + list json) :=
  match cache_path with
  | Some text =>
      match read_cache py (readlines text) with
      | inr prompts => (Some text, inr prompts)
      | inl JSONDecodeError | inl KeyError => fetch_prompts dataset
      | inl e => (Some text, inl e)
      end
  | None => fetch_prompts dataset
  end.

(** *** Completion service *)

(** The part of a chat completion the runner reads.  The client library
    declares both [choice.message] and [message.content] optional. *)
Record chat_message := { content : option pystr }.
Record choice := { message : option chat_message }.
Record response := { choices : list choice; model : pystr }.

(** What [client.chat.completions.create] does at one call: it returns, or
    it raises a timeout ([APITimeoutError], [TimeoutException]), some other
    [Exception], or a [KeyboardInterrupt] delivered while the request is in
    flight. *)
Inductive call_result :=
| Returns (r : response)
| RaisesTimeout
| RaisesException (description : pystr)
| RaisesKeyboardInterrupt.

(** The service as the run meets it: the answer to the call made at
    position [index] of the loop, for the given prompt. *)
Definition service := nat -> pystr -> call_result.

(** *** Configuration: the two module constants the policy depends on. *)
Record config := { STOP_AFTER_LIMIT : bool; OUTPUT_LIMIT : Z }.

(** *** What a run prints, logs and releases, in order. *)
Inductive event :=
| PrintLimitAlreadyReached (limit : Z)
| PrintAllProcessed
| LogStarting (batch existing : Z)
| LogProcessing (absolute_index : Z) (prompt_preview : pystr)
| LogTimeout (absolute_index : Z)
| LogError (absolute_index : Z) (description prompt_preview : pystr)
| LogEmptyChoices (absolute_index : Z)
| LogRecorded (absolute_index : Z) (model_name : pystr)
| PrintLimitReached (limit : Z)
| PrintInterrupted
| ClientClosed.

(** The effects of one pass through the loop body, or of a whole loop. *)
Record effects := {
  written : list pystr;          (* lines written to the ledger and flushed *)
  calls : list (Z * pystr);      (* requests made: absolute index, prompt *)
  events : list event;
  interrupted : bool             (* left by a [KeyboardInterrupt] *)
}.

Definition then_effects (a b : effects) : effects :=
  {| written := written a ++ written b;
     calls := calls a ++ calls b;
     events := events a ++ events b;
     interrupted := interrupted b |}.

Definition no_effects : effects :=
  {| written := []; calls := []; events := []; interrupted := false |}.

(** The record of a completed item. *)
Definition record_of (prompt model_name : pystr) (message_content : json) : json :=
  JObject [(str "prompt", JString prompt);
           (str "model", JString model_name);
           (str "output", message_content)].

(** The conditional expression of line 151, [choice.message.content] when
    there is a message and the empty string otherwise, as the value that is
    serialised: an absent content is Python's [None]. *)
Definition message_content_of (c : choice) : json :=
  match message c with
  | Some m =>
      match content m with
      | Some text => JString text
      | None => JNull
      end
  | None => JString []
  end.

(** The body of the [for] loop for one [(index, prompt)]. *)
Definition process_item (create : service) (processed_count : Z)
    (item : nat * pystr) : effects :=
  let (index, prompt) := item in
  let absolute_index := processed_count + Z.of_nat index + 1 in
  let prompt_preview := firstn 80 (replace_newlines prompt) in
  let started := LogProcessing absolute_index prompt_preview in
  let call := (absolute_index, prompt) in
  match create index prompt with
  | RaisesTimeout =>
      {| written := []; calls := [call];
         events := [started; LogTimeout absolute_index];
         interrupted := false |}
  | RaisesException exc =>
      {| written := []; calls := [call];
         events := [started; LogError absolute_index exc prompt_preview];
         interrupted := false |}
  | RaisesKeyboardInterrupt =>
      {| written := []; calls := [call]; events := [started];
         interrupted := true |}
  | Returns resp =>
      match choices resp with
      | [] =>
          {| written := []; calls := [call];
             events := [started; LogEmptyChoices absolute_index];
             interrupted := false |}
      | first :: _ =>
          let message_content := message_content_of first in
          let model_name := model resp in
          let record := record_of prompt model_name message_content in
          {| written := [dumps record ++ [NL]]; calls := [call];
             events := [started; LogRecorded absolute_index model_name];
             interrupted := false |}
      end
  end.

(** The [for] loop: a [KeyboardInterrupt] leaves it, everything else goes on
    with the next item. *)
Fixpoint run_loop (create : service) (processed_count : Z)
    (items : list (nat * pystr)) : effects :=
  match items with
  | [] => no_effects
  | item :: rest =>
      let e := process_item create processed_count item in
      if interrupted e then e
      else then_effects e (run_loop create processed_count rest)
  end.

(** The result of a run: the ledger file afterwards and what was done. *)
Record run := {
  ledger : file;
  submitted : list (Z * pystr);
  output : list event
}.

(** Lines 88 to 171 of [process_prompts]: the two remaining checks, the
    working slice, the loop, the closing report and the release of the
    client.  (The progress bar and its [max_total] only display.) *)
Definition process_remaining (cfg : config) (create : service)
    (prompts : list pystr) (results_file : pystr)
    (processed_count remaining_capacity : Z) : run :=
  let total_prompts := Z.of_nat (length prompts) in
  if remaining_capacity <=? 0 then
    {| ledger := Some results_file; submitted := []; output := [PrintAllProcessed] |}
  else if total_prompts <=? processed_count then
    {| ledger := Some results_file; submitted := []; output := [PrintAllProcessed] |}
  else
    let prompts_to_process :=
      slice prompts processed_count (processed_count + remaining_capacity) in
    let batch := Z.of_nat (length prompts_to_process) in
    let e := run_loop create processed_count (enumerate prompts_to_process) in
    let closing :=
      if interrupted e then [PrintInterrupted]
      else if (STOP_AFTER_LIMIT cfg
               && (OUTPUT_LIMIT cfg <=? processed_count + batch))%bool
           then [PrintLimitReached (OUTPUT_LIMIT cfg)]
           else [] in
    {| ledger := Some (results_file ++ concat (written e));
       submitted := calls e;
       output := LogStarting batch processed_count :: events e
                 ++ closing ++ [ClientClosed] |}.

(** The text of a file, empty when there is none. *)
Definition text_of (f : file) : pystr :=
  match f with Some text => text | None => [] end.

(** [process_prompts(prompts)], with the ledger file, the configuration and
    the service made explicit. *)
Definition process_prompts (cfg : config) (create : service)
    (prompts : list pystr) (results_path : file) : run :=
  let total_prompts := Z.of_nat (length prompts) in
  let (results_file, processed_count) := count_existing_results results_path in
  if STOP_AFTER_LIMIT cfg then
    if OUTPUT_LIMIT cfg <=? processed_count then
      {| ledger := results_file; submitted := [];
         output := [PrintLimitAlreadyReached (OUTPUT_LIMIT cfg)] |}
    else
      process_remaining cfg create prompts (text_of results_file)
        processed_count (OUTPUT_LIMIT cfg - processed_count)
  else
    process_remaining cfg create prompts (text_of results_file)
      processed_count (total_prompts - processed_count).

(** Several runs one after the other on the same ledger file, each with its
    own service and prompt list. *)
Fixpoint run_sequence (cfg : config) (runs : list (service * list pystr))
    (results_path : file) : file :=
  match runs with
  | [] => results_path
  | (create, prompts) :: rest =>
      run_sequence cfg rest (ledger (process_prompts cfg create prompts results_path))
  end.

(** *** Vocabulary of the properties *)

(** The number of records a ledger file holds, as the runner counts them. *)
Definition record_count (results_path : file) : Z :=
  snd (count_existing_results results_path).

(** The run ends in one of the three checks made before the loop. *)
Definition initial_noop (cfg : config) (processed_count total_prompts : Z) : bool :=
  if STOP_AFTER_LIMIT cfg then
    (OUTPUT_LIMIT cfg <=? processed_count)
    || (OUTPUT_LIMIT cfg - processed_count <=? 0)
    || (total_prompts <=? processed_count)
  else
    (total_prompts - processed_count <=? 0) || (total_prompts <=? processed_count).

(** The size of the working slice in the words of the design: the smaller of
    the room left under the limit and the prompts left, or the prompts left
    when no limit applies. *)
Definition remaining (cfg : config) (processed_count total_prompts : Z) : Z :=
  if STOP_AFTER_LIMIT cfg
  then Z.min (OUTPUT_LIMIT cfg - processed_count) (total_prompts - processed_count)
  else total_prompts - processed_count.

(** The prompts at the source indices [start], ..., [start + n - 1], each
    with the one-based index the runner reports for it. *)
Definition indexed_prompts (prompts : list pystr) (start n : nat)
  : list (Z * pystr) :=
  map (fun i => (Z.of_nat i + 1, nth i prompts [])) (seq start n).

(** The zero-based source index of a request. *)
Definition source_index (call : Z * pystr) : Z := fst call - 1.

(** The request the loop makes for an item. *)
Definition call_of (processed_count : Z) (item : nat * pystr) : Z * pystr :=
  (processed_count + Z.of_nat (fst item) + 1, snd item).

(** The items the loop gets to: all of them up to and including the first
    whose request is interrupted. *)
Fixpoint reached (create : service) (items : list (nat * pystr))
  : list (nat * pystr) :=
  match items with
  | [] => []
  | (index, prompt) :: rest =>
      match create index prompt with
      | RaisesKeyboardInterrupt => [(index, prompt)]
      | _ => (index, prompt) :: reached create rest
      end
  end.

(** The three outcomes that skip an item: a timeout, another error, a
    response without choices. *)
Definition skips (r : call_result) : bool :=
  match r with
  | RaisesTimeout | RaisesException _ => true
  | Returns resp => negb (truthy (choices resp))
  | RaisesKeyboardInterrupt => false
  end.

(** A response that completes an item with text: it has a choice, and the
    first choice has no message or a message whose content is a string. *)
Definition completes_with_text (r : call_result) : bool :=
  match r with
  | Returns resp =>
      match choices resp with
      | first :: _ =>
          match message first with
          | Some m => match content m with Some _ => true | None => false end
          | None => true
          end
      | [] => true
      end
  | _ => true
  end.

(** The ledger line of a record whose three fields are strings. *)
Definition string_record (prompt model_name text : pystr) : pystr :=
  dumps (JObject [(str "prompt", JString prompt);
                  (str "model", JString model_name);
                  (str "output", JString text)]) ++ [NL].

(** The line a response with a choice leaves in the ledger. *)
Definition line_of (prompt : pystr) (resp : response) : pystr :=
  match choices resp with
  | first :: _ =>
      dumps (record_of prompt (model resp) (message_content_of first)) ++ [NL]
  | [] => []
  end.

(** A run in which nothing was skipped and that was not interrupted. *)
Definition clean_event (e : event) : bool :=
  match e with
  | LogTimeout _ | LogError _ _ _ | LogEmptyChoices _ | PrintInterrupted => false
  | _ => true
  end.

Definition is_interrupt (e : event) : bool :=
  match e with PrintInterrupted => true | _ => false end.

Definition is_limit_report (e : event) : bool :=
  match e with PrintLimitReached _ => true | _ => false end.

(** A character that is not white space, and a text holding one. *)
Definition nonspace (c : N) : bool := negb (isspace c).
Definition has_nonspace (s : pystr) : bool := existsb nonspace s.

(** Reading a text character by character: whether the line being read has
    shown a non-space character, and how many non-blank lines have been
    closed by their newline. *)
Fixpoint pending_after (p : bool) (s : pystr) : bool :=
  match s with
  | [] => p
  | c :: t =>
      if (c =? NL)%N then pending_after false t
      else pending_after (p || nonspace c) t
  end.

Fixpoint closed_lines (p : bool) (s : pystr) : nat :=
  match s with
  | [] => 0
  | c :: t =>
      if (c =? NL)%N then ((if p then 1 else 0) + closed_lines false t)%nat
      else closed_lines (p || nonspace c) t
  end.

(** A text without newline. *)
Definition newline_free (s : pystr) : bool :=
  forallb (fun c => negb (c =? NL)%N) s.

(** The form of a line the runner writes: an opening brace, a body without
    newline, the newline. *)
Definition ledger_line (line : pystr) : Prop :=
  exists body, line = 123%N :: body ++ [NL] /\ newline_free body = true.

(** A text that is empty or ends with a newline. *)
Definition newline_terminated (s : pystr) : Prop :=
  s = [] \/ exists t, s = t ++ [NL].

End Batch.

(** ** Concrete configurations, services and files *)

Module Examples.
Import Py Json Batch.

Definition limited (limit : Z) : config :=
  {| STOP_AFTER_LIMIT := true; OUTPUT_LIMIT := limit |}.

Definition unlimited : config :=
  {| STOP_AFTER_LIMIT := false; OUTPUT_LIMIT := 1000 |}.

(** A response with one choice whose message carries [text]. *)
Definition answer (text : pystr) : response :=
  {| choices := [{| message := Some {| content := Some text |} |}];
     model := str "gpt-4o" |}.

(** A response with one choice that has no message. *)
Definition bare_choice : response :=
  {| choices := [{| message := None |}]; model := str "gpt-4o" |}.

(** A service that answers every prompt with the prompt itself. *)
Definition echo : service := fun _ prompt => Returns (answer prompt).

(** A service, a function of the prompt alone, that times out on one prompt
    and echoes the others. *)
Definition times_out_on (bad : pystr) : service :=
  fun _ prompt =>
    if list_eq_dec N.eq_dec prompt bad then RaisesTimeout
    else Returns (answer prompt).

(** A service interrupted during every request. *)
Definition interrupted_service : service := fun _ _ => RaisesKeyboardInterrupt.

(** A service whose responses carry a choice without message. *)
Definition bare_service : service := fun _ _ => Returns bare_choice.

Definition four_prompts : list pystr := [str "a"; str "b"; str "c"; str "d"].

(** A ledger of two records. *)
Definition two_records : pystr :=
  string_record (str "a") (str "gpt-4o") (str "x")
  ++ string_record (str "b") (str "gpt-4o") (str "y").

(** A cache whose first line is a JSON array and whose second is cut off. *)
Definition array_then_malformed : pystr :=
  str "[]" ++ [NL] ++ str "{" ++ [NL].

(** A cache whose only line is cut off. *)
Definition malformed : pystr := str "{" ++ [NL].

End Examples.

(** ** The entry point, and the vocabulary of the log *)

Module Driver.
Import Py Json Batch Examples.

(** A Unicode scalar value: a code point that is not a surrogate. *)
Definition is_scalar (c : N) : bool :=
  ((c <? 55296) || (57344 <=? c) && (c <? 1114112))%N.

Definition scalar_text (s : pystr) : bool := forallb is_scalar s.

(** The cache line of a prompt, as [load_prompts] writes it. *)
Definition prompt_line (prompt : pystr) : pystr :=
  dumps (JObject [(str "prompt", JString prompt)]) ++ [NL].

(** A line of a text file with its newline. *)
Definition physical_line (line : pystr) : Prop :=
  exists body, line = body ++ [NL] /\ newline_free body = true.

(** [prompt.replace("\n", " ")[:80]] *)
Definition preview (prompt : pystr) : pystr :=
  firstn 80 (replace_newlines prompt).

(** The kinds of log lines. *)
Definition is_processing (e : event) : bool :=
  match e with LogProcessing _ _ => true | _ => false end.

Definition is_recorded (e : event) : bool :=
  match e with LogRecorded _ _ => true | _ => false end.

Definition is_skipped (e : event) : bool :=
  match e with
  | LogTimeout _ | LogError _ _ _ | LogEmptyChoices _ => true
  | _ => false
  end.

Definition is_client_closed (e : event) : bool :=
  match e with ClientClosed => true | _ => false end.

Definition count_events (kind : event -> bool) (l : list event) : nat :=
  length (filter kind l).

(** A request that returns a response with a choice. *)
Definition completes (r : call_result) : bool :=
  match r with
  | Returns resp => truthy (choices resp)
  | _ => false
  end.

(** The size of the ledger a run of completed requests leads to. *)
Definition target_count (cfg : config) (total_prompts : Z) : Z :=
  if STOP_AFTER_LIMIT cfg then Z.min (OUTPUT_LIMIT cfg) total_prompts
  else total_prompts.

(** [main] hands to [process_prompts] whatever [load_prompts] returned: the
    values of the [prompt] keys, which need not be strings.  The first use
    of a prompt in the loop is [prompt.replace] (line 116), outside the inner
    [try]; on a value that is not a [str] it raises [AttributeError], which
    nothing in the function catches. *)
Inductive crash := AttributeError.

(** The [for] loop over such values. *)
Fixpoint run_loop_values (create : service) (processed_count : Z)
    (items : list (nat * json)) : effects * option crash :=
  match items with
  | [] => (no_effects, None)
  | (index, value) :: rest =>
      match value with
      | JString prompt =>
          let e := process_item create processed_count (index, prompt) in
          if interrupted e then (e, None)
          else
            let (e', failure) := run_loop_values create processed_count rest in
            (then_effects e e', failure)
      | _ => (no_effects, Some AttributeError)
      end
  end.

(** Lines 88 to 171 on such values.  An exception that leaves the loop skips
    the closing report; the [finally] clause still closes the client. *)
Definition process_remaining_values (cfg : config) (create : service)
    (prompts : list json) (results_file : pystr)
    (processed_count remaining_capacity : Z) : run * option crash :=
  let total_prompts := Z.of_nat (length prompts) in
  if remaining_capacity <=? 0 then
    ({| ledger := Some results_file; submitted := [];
        output := [PrintAllProcessed] |}, None)
  else if total_prompts <=? processed_count then
    ({| ledger := Some results_file; submitted := [];
        output := [PrintAllProcessed] |}, None)
  else
    let prompts_to_process :=
      slice prompts processed_count (processed_count + remaining_capacity) in
    let batch := Z.of_nat (length prompts_to_process) in
    let (e, failure) :=
      run_loop_values create processed_count (enumerate prompts_to_process) in
    let closing :=
      match failure with
      | Some _ => []
      | None =>
          if interrupted e then [PrintInterrupted]
          else if (STOP_AFTER_LIMIT cfg
                   && (OUTPUT_LIMIT cfg <=? processed_count + batch))%bool
               then [PrintLimitReached (OUTPUT_LIMIT cfg)]
               else []
      end in
    ({| ledger := Some (results_file ++ concat (written e));
        submitted := calls e;
        output := LogStarting batch processed_count :: events e
                  ++ closing ++ [ClientClosed] |}, failure).

(** [process_prompts] on such values. *)
Definition process_values (cfg : config) (create : service)
    (prompts : list json) (results_path : file) : run * option crash :=
  let total_prompts := Z.of_nat (length prompts) in
  let (results_file, processed_count) := count_existing_results results_path in
  if STOP_AFTER_LIMIT cfg then
    if OUTPUT_LIMIT cfg <=? processed_count then
      ({| ledger := results_file; submitted := [];
          output := [PrintLimitAlreadyReached (OUTPUT_LIMIT cfg)] |}, None)
    else
      process_remaining_values cfg create prompts (text_of results_file)
        processed_count (OUTPUT_LIMIT cfg - processed_count)
  else
    process_remaining_values cfg create prompts (text_of results_file)
      processed_count (total_prompts - processed_count).

(** [main()]: the cache file afterwards, and either the exception that left
    [load_prompts], with the ledger untouched, or the run and the exception
    that ended it, if any. *)
Definition main (py : interpreter) (cfg : config) (create : service)
    (dataset : list pystr) (cache_path results_path : file)
  : file * (exn + run * option crash) :=
  match load_prompts py dataset cache_path with
  | (cache, inl e) => (cache, inl e)
  | (cache, inr prompts) =>
      (cache, inr (process_values cfg create prompts results_path))
  end.

(** Two prompts with characters that [json.dumps] escapes. *)
Definition escaped_prompts : list pystr :=
  [[72; 105; 34; 92; 10; 233; 128512]%N; str "2 + 2?"].


(** A service whose responses carry a message without content. *)
Definition no_content : response :=
  {| choices := [{| message := Some {| content := None |} |}];
     model := str "gpt-4o" |}.

Definition no_content_service : service := fun _ _ => Returns no_content.

(** The values of a cache whose second prompt is a number. *)
Definition number_second : list json :=
  [JString (str "a"); JNumber (str "5"); JString (str "c")].

(** A cache whose first prompt is an integer of 4301 digits and whose
    second line is an object without the key. *)
Definition long_integer_first : pystr :=
  (dumps (JObject [(str "prompt", JNumber (repeat 49%N 4301))]) ++ [NL])
  ++ (str "{}" ++ [NL]).

(** A cache of one line: 992 arrays, one inside the other. *)
Definition deep_line : pystr :=
  repeat 91%N 992 ++ repeat 93%N 992 ++ [NL].

(** A cache of three lines whose second prompt is the number 5. *)
Definition number_second_cache : pystr :=
  prompt_line (str "a")
  ++ (dumps (JObject [(str "prompt", JNumber (str "5"))]) ++ [NL])
  ++ prompt_line (str "c").

End Driver.

Import Py Json Batch Examples Driver.

(** * Properties *)

(** ** Counting the lines of a text *)

Section Lines.

Lemma sum_ones_length {A} (l : list A) : sum_ones l = Z.of_nat (length l).
Proof.
  unfold sum_ones.
  assert (G : forall acc, fold_left (fun a (_ : A) => a + 1) l acc
                          = acc + Z.of_nat (length l)).
  { induction l as [|x l IH]; intro acc; cbn [fold_left length].
    - lia.
    - rewrite IH. lia. }
  now rewrite G.
Qed.

Lemma truthy_lstrip s : truthy (lstrip s) = has_nonspace s.
Proof.
  induction s as [|c s IH]; cbn [lstrip has_nonspace existsb]; [reflexivity|].
  change (nonspace c) with (negb (isspace c)).
  destruct (isspace c); cbn [negb orb truthy]; auto.
Qed.

Lemma has_nonspace_lstrip s : has_nonspace (lstrip s) = has_nonspace s.
Proof.
  induction s as [|c s IH]; cbn [lstrip]; [reflexivity|].
  destruct (isspace c) eqn:E; [|reflexivity].
  rewrite IH. cbn [has_nonspace existsb].
  change (nonspace c) with (negb (isspace c)). now rewrite E.
Qed.

Lemma has_nonspace_app a b :
  has_nonspace (a ++ b) = has_nonspace a || has_nonspace b.
Proof. apply existsb_app. Qed.

Lemma has_nonspace_rev s : has_nonspace (rev s) = has_nonspace s.
Proof.
  induction s as [|c s IH]; [reflexivity|].
  cbn [rev]. rewrite has_nonspace_app, IH.
  cbn [has_nonspace existsb]. now rewrite orb_false_r, orb_comm.
Qed.

Lemma nonblank_has_nonspace s : nonblank s = has_nonspace s.
Proof.
  unfold nonblank, strip, rstrip.
  now rewrite truthy_lstrip, has_nonspace_rev, has_nonspace_lstrip,
    has_nonspace_rev.
Qed.

Lemma nonspace_NL : nonspace NL = false.
Proof. reflexivity. Qed.

Lemma count_readlines_from s : forall cur,
  length (filter nonblank (readlines_from cur s))
  = (closed_lines (has_nonspace cur) s
     + Nat.b2n (pending_after (has_nonspace cur) s))%nat.
Proof.
  induction s as [|c s IH]; intro cur.
  - cbn [readlines_from closed_lines pending_after].
    destruct cur as [|x cur]; [reflexivity|].
    cbn [filter]. rewrite nonblank_has_nonspace, has_nonspace_rev.
    now destruct (has_nonspace (x :: cur)).
  - cbn [readlines_from closed_lines pending_after].
    destruct (N.eqb_spec c NL) as [->|Hc].
    + cbn [filter]. rewrite nonblank_has_nonspace, has_nonspace_rev.
      cbn [has_nonspace existsb]. rewrite nonspace_NL. cbn [orb].
      fold (has_nonspace cur). specialize (IH []). cbn [has_nonspace existsb] in IH.
      destruct (has_nonspace cur); cbn [length]; rewrite IH; lia.
    + rewrite IH. cbn [has_nonspace existsb].
      now rewrite (orb_comm (nonspace c)).
Qed.

Lemma record_count_scan text :
  record_count (Some text)
  = Z.of_nat (closed_lines false text + Nat.b2n (pending_after false text)).
Proof.
  unfold record_count, count_existing_results. cbn [snd].
  rewrite sum_ones_length. unfold readlines.
  now rewrite count_readlines_from.
Qed.

Lemma pending_after_app a : forall p b,
  pending_after p (a ++ b) = pending_after (pending_after p a) b.
Proof.
  induction a as [|c a IH]; intros p b; cbn [app pending_after]; [reflexivity|].
  destruct (c =? NL)%N; apply IH.
Qed.

Lemma closed_lines_app a : forall p b,
  closed_lines p (a ++ b)
  = (closed_lines p a + closed_lines (pending_after p a) b)%nat.
Proof.
  induction a as [|c a IH]; intros p b;
    cbn [app closed_lines pending_after]; [reflexivity|].
  destruct (c =? NL)%N; rewrite IH; lia.
Qed.

Lemma scan_body body : newline_free body = true -> forall p,
  closed_lines p body = 0%nat
  /\ pending_after p body = p || has_nonspace body.
Proof.
  induction body as [|c body IH]; intros Hn p.
  - cbn. now rewrite orb_false_r.
  - cbn [closed_lines pending_after has_nonspace existsb].
    cbn [newline_free forallb] in Hn. apply andb_true_iff in Hn as [Hc Hn].
    apply negb_true_iff in Hc. rewrite Hc.
    destruct (IH Hn (p || nonspace c)) as [E1 E2].
    split; [exact E1|]. rewrite E2. now rewrite orb_assoc.
Qed.

Lemma scan_ledger_line line p :
  ledger_line line ->
  closed_lines p line = 1%nat /\ pending_after p line = false.
Proof.
  intros (body & -> & Hn).
  change (123%N :: body ++ [NL]) with ([123%N] ++ body ++ [NL]).
  rewrite !closed_lines_app, !pending_after_app.
  cbn [closed_lines pending_after N.eqb Pos.eqb NL].
  replace (nonspace 123) with true by reflexivity. rewrite orb_true_r.
  destruct (scan_body body Hn true) as [E1 E2].
  rewrite E1, E2. cbn [orb]. cbn. auto.
Qed.

Lemma scan_ledger_lines ws : Forall ledger_line ws -> forall p,
  closed_lines p (concat ws) = length ws
  /\ pending_after p (concat ws) = match ws with [] => p | _ => false end.
Proof.
  induction 1 as [|w ws Hw _ IH]; intro p; [now cbn|].
  cbn [concat length]. rewrite closed_lines_app, pending_after_app.
  destruct (scan_ledger_line w p Hw) as [E1 E2]. rewrite E1, E2.
  destruct (IH false) as [F1 F2]. rewrite F1, F2.
  split; [reflexivity|]. now destruct ws.
Qed.

(** The count after lines have been appended: a first line joins an
    unfinished last line of the old text. *)
Lemma record_count_append text ws :
  Forall ledger_line ws ->
  record_count (Some (text ++ concat ws))
  = match ws with
    | [] => record_count (Some text)
    | _ => Z.of_nat (closed_lines false text + length ws)
    end.
Proof.
  intro H. destruct ws as [|w ws]; [now rewrite app_nil_r|].
  rewrite record_count_scan, closed_lines_app, pending_after_app.
  destruct (scan_ledger_lines (w :: ws) H (pending_after false text)) as [E1 E2].
  rewrite E1, E2. cbn [Nat.b2n]. f_equal. lia.
Qed.

Lemma record_count_append_le text ws :
  Forall ledger_line ws ->
  record_count (Some text) <= record_count (Some (text ++ concat ws))
    <= record_count (Some text) + Z.of_nat (length ws).
Proof.
  intro H. rewrite (record_count_append text ws H).
  destruct ws as [|w ws]; [cbn [length]; lia|].
  rewrite record_count_scan.
  destruct (pending_after false text); cbn [Nat.b2n length]; lia.
Qed.

Lemma record_count_append_terminated text ws :
  Forall ledger_line ws -> pending_after false text = false ->
  record_count (Some (text ++ concat ws))
  = record_count (Some text) + Z.of_nat (length ws).
Proof.
  intros H Hp. rewrite (record_count_append text ws H).
  rewrite record_count_scan, Hp.
  destruct ws; cbn [Nat.b2n length]; lia.
Qed.

Lemma newline_terminated_pending text :
  newline_terminated text -> pending_after false text = false.
Proof.
  intros [->|[t ->]]; [reflexivity|].
  rewrite pending_after_app. reflexivity.
Qed.

Lemma record_count_nonneg f : 0 <= record_count f.
Proof.
  destruct f as [text|]; [rewrite record_count_scan; lia|cbn; lia].
Qed.

End Lines.

(** ** What [json.dumps] writes for a record *)

Section Dumps.

Lemma newline_free_app a b :
  newline_free (a ++ b) = newline_free a && newline_free b.
Proof. apply forallb_app. Qed.

Lemma hex_digit_newline_free d : negb (hex_digit d =? NL)%N = true.
Proof.
  apply negb_true_iff, N.eqb_neq. unfold hex_digit, NL.
  destruct (d <? 10)%N; lia.
Qed.

Lemma u_escape_newline_free n : newline_free (u_escape n) = true.
Proof.
  unfold u_escape. cbn [newline_free forallb].
  now rewrite !hex_digit_newline_free.
Qed.

Lemma escape_char_newline_free c : newline_free (escape_char c) = true.
Proof.
  unfold escape_char.
  destruct (c =? 34)%N; [reflexivity|].
  destruct (c =? 92)%N; [reflexivity|].
  destruct ((32 <=? c) && (c <=? 126))%N eqn:Hprintable.
  - cbn [newline_free forallb]. rewrite andb_true_r.
    apply negb_true_iff, N.eqb_neq. unfold NL.
    apply andb_true_iff in Hprintable as [H _]. apply N.leb_le in H. lia.
  - repeat match goal with
           | |- context [if ?b then _ else _] => destruct b
           end;
      rewrite ?newline_free_app, ?u_escape_newline_free; reflexivity.
Qed.

Lemma dumps_string_newline_free s : newline_free (dumps_string s) = true.
Proof.
  unfold dumps_string.
  change (34%N :: flat_map escape_char s ++ [34%N])
    with ([34%N] ++ flat_map escape_char s ++ [34%N]).
  rewrite !newline_free_app. cbn [newline_free forallb N.eqb Pos.eqb NL negb andb].
  rewrite andb_true_r. fold (newline_free (flat_map escape_char s)).
  induction s as [|c s IH]; [reflexivity|].
  cbn [flat_map]. now rewrite newline_free_app, escape_char_newline_free, IH.
Qed.

Lemma message_content_newline_free c :
  newline_free (dumps (message_content_of c)) = true.
Proof.
  unfold message_content_of.
  destruct (message c) as [m|]; [destruct (content m)|];
    cbn [dumps]; try apply dumps_string_newline_free; reflexivity.
Qed.

Lemma record_ledger_line prompt model_name c :
  ledger_line (dumps (record_of prompt model_name (message_content_of c)) ++ [NL]).
Proof.
  unfold record_of. cbn [dumps map join fst snd].
  eexists. split; [cbn [app]; reflexivity|].
  rewrite !newline_free_app, !dumps_string_newline_free,
    message_content_newline_free.
  reflexivity.
Qed.

End Dumps.

(** ** The loop *)

Section Loop.

Variable create : service.
Variable processed_count : Z.

Lemma process_item_calls item :
  calls (process_item create processed_count item) = [call_of processed_count item].
Proof.
  destruct item as [index prompt]. unfold process_item, call_of. cbn [fst snd].
  destruct (create index prompt) as [resp| | |]; try reflexivity.
  now destruct (choices resp).
Qed.

Lemma process_item_interrupted index prompt :
  interrupted (process_item create processed_count (index, prompt))
  = match create index prompt with RaisesKeyboardInterrupt => true | _ => false end.
Proof.
  unfold process_item.
  destruct (create index prompt) as [resp| | |]; try reflexivity.
  now destruct (choices resp).
Qed.

Lemma process_item_written index prompt :
  written (process_item create processed_count (index, prompt))
  = match create index prompt with
    | Returns resp =>
        match choices resp with [] => [] | _ :: _ => [line_of prompt resp] end
    | _ => []
    end.
Proof.
  unfold process_item, line_of.
  destruct (create index prompt) as [resp| | |]; try reflexivity.
  now destruct (choices resp).
Qed.

Lemma process_item_ledger_lines item :
  Forall ledger_line (written (process_item create processed_count item))
  /\ (length (written (process_item create processed_count item)) <= 1)%nat.
Proof.
  destruct item as [index prompt]. rewrite process_item_written.
  destruct (create index prompt) as [resp| | |]; cbn [length]; auto.
  unfold line_of. destruct (choices resp) as [|first rest]; cbn [length]; auto.
  split; [|lia]. constructor; [apply record_ledger_line|constructor].
Qed.

Lemma run_loop_calls items :
  calls (run_loop create processed_count items)
  = map (call_of processed_count) (reached create items).
Proof.
  induction items as [|[index prompt] rest IH]; [reflexivity|].
  cbn [run_loop reached]. rewrite process_item_interrupted.
  pose proof (process_item_calls (index, prompt)) as Hc.
  destruct (create index prompt); cbn [map then_effects calls];
    rewrite Hc; try rewrite IH; reflexivity.
Qed.

Lemma run_loop_written items :
  written (run_loop create processed_count items)
  = flat_map (fun item => written (process_item create processed_count item))
      (reached create items).
Proof.
  induction items as [|[index prompt] rest IH]; [reflexivity|].
  cbn [run_loop reached]. rewrite process_item_interrupted.
  destruct (create index prompt) eqn:E; cbn [flat_map then_effects written];
    try rewrite IH; try reflexivity.
  now rewrite app_nil_r.
Qed.

Lemma run_loop_interrupted items :
  interrupted (run_loop create processed_count items) = false ->
  reached create items = items.
Proof.
  induction items as [|[index prompt] rest IH]; [reflexivity|].
  cbn [run_loop reached]. rewrite process_item_interrupted.
  destruct (create index prompt) eqn:E; cbn [then_effects interrupted];
    intro H; try (now rewrite IH).
  unfold process_item in H. rewrite E in H. discriminate.
Qed.

Lemma reached_prefix items :
  exists k, (k <= length items)%nat /\ reached create items = firstn k items.
Proof.
  induction items as [|[index prompt] rest (k & Hk & IH)].
  - exists 0%nat. split; [cbn; lia|reflexivity].
  - cbn [reached].
    destruct (create index prompt);
      try (exists (S k); cbn [firstn length]; rewrite IH; split; [lia|reflexivity]).
    exists 1%nat. cbn [length]. split; [lia|reflexivity].
Qed.

Lemma run_loop_ledger_lines items :
  Forall ledger_line (written (run_loop create processed_count items))
  /\ (length (written (run_loop create processed_count items))
      <= length (calls (run_loop create processed_count items)))%nat.
Proof.
  rewrite run_loop_written, run_loop_calls, length_map.
  induction (reached create items) as [|item rest [IH1 IH2]];
    [split; [constructor|cbn; lia]|].
  cbn [flat_map length]. rewrite length_app.
  destruct (process_item_ledger_lines item) as [H1 H2].
  split; [apply Forall_app; split; assumption|lia].
Qed.

Lemma process_item_events_interrupt item :
  existsb is_interrupt (events (process_item create processed_count item)) = false.
Proof.
  destruct item as [index prompt]. unfold process_item.
  destruct (create index prompt) as [resp| | |]; try reflexivity.
  now destruct (choices resp).
Qed.

Lemma run_loop_events_interrupt items :
  existsb is_interrupt (events (run_loop create processed_count items)) = false.
Proof.
  induction items as [|item rest IH]; [reflexivity|].
  cbn [run_loop].
  destruct (interrupted (process_item create processed_count item)).
  - apply process_item_events_interrupt.
  - cbn [then_effects events].
    now rewrite existsb_app, process_item_events_interrupt, IH.
Qed.

Lemma process_item_events_report item :
  existsb is_limit_report (events (process_item create processed_count item))
  = false.
Proof.
  destruct item as [index prompt]. unfold process_item.
  destruct (create index prompt) as [resp| | |]; try reflexivity.
  now destruct (choices resp).
Qed.

Lemma run_loop_events_report items :
  existsb is_limit_report (events (run_loop create processed_count items))
  = false.
Proof.
  induction items as [|item rest IH]; [reflexivity|].
  cbn [run_loop].
  destruct (interrupted (process_item create processed_count item)).
  - apply process_item_events_report.
  - cbn [then_effects events].
    now rewrite existsb_app, process_item_events_report, IH.
Qed.

(** A loop with clean events has written one line for each item. *)
Lemma run_loop_clean items :
  forallb clean_event (events (run_loop create processed_count items)) = true ->
  interrupted (run_loop create processed_count items) = false ->
  length (written (run_loop create processed_count items)) = length items.
Proof.
  induction items as [|[index prompt] rest IH]; [reflexivity|].
  cbn [run_loop]. rewrite process_item_interrupted.
  pose proof (process_item_written index prompt) as Hw.
  unfold process_item in *.
  destruct (create index prompt) as [resp| | |];
    cbn [then_effects events written interrupted length app forallb clean_event andb];
    try discriminate.
  destruct (choices resp) as [|first more];
    cbn [then_effects events written interrupted length app forallb clean_event andb];
    try discriminate.
  intros Hc Hi. now rewrite IH.
Qed.

End Loop.

(** ** Slices and source indices *)

Section Slices.

Variable prompts : list pystr.

Lemma slice_firstn_skipn (lo hi : Z) :
  0 <= lo <= Z.of_nat (length prompts) -> lo <= hi ->
  slice prompts lo hi
  = firstn (Z.to_nat (Z.min hi (Z.of_nat (length prompts)) - lo))
      (skipn (Z.to_nat lo) prompts).
Proof.
  intros Hlo Hhi. unfold slice, slice_bound.
  destruct (Z.ltb_spec lo 0); [lia|].
  destruct (Z.ltb_spec hi 0); [lia|].
  now rewrite (Z.min_l lo) by lia.
Qed.

Lemma skipn_cons_nth (a : nat) :
  (a < length prompts)%nat ->
  skipn a prompts = nth a prompts [] :: skipn (S a) prompts.
Proof.
  revert a. induction prompts as [|x l IH]; intros a Ha; cbn [length] in Ha.
  - lia.
  - destruct a as [|a]; [reflexivity|].
    cbn [skipn nth]. apply IH. lia.
Qed.

Lemma enumerate_firstn {A} (items : list A) : forall j k,
  firstn j (enumerate_from k items) = enumerate_from k (firstn j items).
Proof.
  induction items as [|x items IH]; intros [|j] k; try reflexivity.
  cbn [enumerate_from firstn]. now rewrite IH.
Qed.

Lemma enumerate_length {A} (items : list A) : forall k,
  length (enumerate_from k items) = length items.
Proof.
  induction items as [|x items IH]; intro k; [reflexivity|].
  cbn [enumerate_from length]. now rewrite IH.
Qed.

(** The requests for a stretch of the source are its indexed prompts. *)
Lemma calls_indexed (a : nat) : forall n k,
  (a + k + n <= length prompts)%nat ->
  map (call_of (Z.of_nat a)) (enumerate_from k (firstn n (skipn (a + k) prompts)))
  = indexed_prompts prompts (a + k) n.
Proof.
  induction n as [|n IH]; intros k Hk; [reflexivity|].
  rewrite skipn_cons_nth by lia.
  cbn [firstn enumerate_from map]. unfold indexed_prompts. cbn [seq map].
  f_equal.
  - unfold call_of. cbn [fst snd]. f_equal. lia.
  - replace (S (a + k)) with (a + S k)%nat by lia. apply IH. lia.
Qed.

End Slices.

(** ** The shape of a run *)

Section Runs.

Variable cfg : config.
Variable create : service.
Variable prompts : list pystr.

Let total_prompts := Z.of_nat (length prompts).

Lemma count_existing_results_eq f :
  count_existing_results f = (Some (text_of f), record_count f).
Proof. now destruct f. Qed.

Lemma process_remaining_run text pc cap :
  0 <= pc < total_prompts -> 0 < cap ->
  let n := Z.to_nat (Z.min cap (total_prompts - pc)) in
  let e := run_loop create pc
             (enumerate (firstn n (skipn (Z.to_nat pc) prompts))) in
  process_remaining cfg create prompts text pc cap
  = {| ledger := Some (text ++ concat (written e));
       submitted := calls e;
       output :=
         LogStarting (Z.of_nat n) pc :: events e
         ++ (if interrupted e then [PrintInterrupted]
             else if (STOP_AFTER_LIMIT cfg
                      && (OUTPUT_LIMIT cfg <=? pc + Z.of_nat n))%bool
                  then [PrintLimitReached (OUTPUT_LIMIT cfg)]
                  else [])
         ++ [ClientClosed] |}.
Proof.
  intros Hpc Hcap n e. unfold process_remaining. fold total_prompts.
  destruct (Z.leb_spec cap 0); [lia|].
  destruct (Z.leb_spec total_prompts pc); [lia|].
  assert (Hs : slice prompts pc (pc + cap)
               = firstn n (skipn (Z.to_nat pc) prompts)).
  { rewrite slice_firstn_skipn by (fold total_prompts; lia).
    fold total_prompts. subst n. f_equal. lia. }
  assert (Hl : Z.of_nat (length (firstn n (skipn (Z.to_nat pc) prompts)))
               = Z.of_nat n).
  { rewrite length_firstn, length_skipn. fold total_prompts. subst n.
    unfold total_prompts in *. lia. }
  rewrite Hs, Hl. reflexivity.
Qed.

(** A run that ends in the initial checks leaves the ledger as the count
    left it and submits nothing. *)
Lemma process_prompts_noop f :
  initial_noop cfg (record_count f) total_prompts = true ->
  let r := process_prompts cfg create prompts f in
  ledger r = Some (text_of f) /\ submitted r = []
  /\ (output r = [PrintLimitAlreadyReached (OUTPUT_LIMIT cfg)]
      \/ output r = [PrintAllProcessed]).
Proof.
  unfold initial_noop, process_prompts. rewrite count_existing_results_eq.
  fold total_prompts. cbn [text_of].
  destruct (STOP_AFTER_LIMIT cfg).
  - destruct (Z.leb_spec (OUTPUT_LIMIT cfg) (record_count f)); cbn [orb].
    + intros _. cbn. auto.
    + unfold process_remaining. fold total_prompts.
      destruct (OUTPUT_LIMIT cfg - record_count f <=? 0); cbn [orb].
      * intros _. cbn. auto.
      * intros ->. cbn. auto.
  - unfold process_remaining. fold total_prompts.
    destruct (total_prompts - record_count f <=? 0); cbn [orb].
    + intros _. cbn. auto.
    + intros ->. cbn. auto.
Qed.

(** A run that passes the initial checks works on the slice of [remaining]
    prompts that starts at the count. *)
Lemma process_prompts_run f :
  initial_noop cfg (record_count f) total_prompts = false ->
  let pc := record_count f in
  let n := Z.to_nat (remaining cfg pc total_prompts) in
  let e := run_loop create pc
             (enumerate (firstn n (skipn (Z.to_nat pc) prompts))) in
  (0 < remaining cfg pc total_prompts /\ pc + Z.of_nat n <= total_prompts)
  /\ process_prompts cfg create prompts f
     = {| ledger := Some (text_of f ++ concat (written e));
          submitted := calls e;
          output :=
            LogStarting (Z.of_nat n) pc :: events e
            ++ (if interrupted e then [PrintInterrupted]
                else if (STOP_AFTER_LIMIT cfg
                         && (OUTPUT_LIMIT cfg <=? pc + Z.of_nat n))%bool
                     then [PrintLimitReached (OUTPUT_LIMIT cfg)]
                     else [])
            ++ [ClientClosed] |}.
Proof.
  pose proof (record_count_nonneg f) as Hnn.
  unfold initial_noop, remaining, process_prompts.
  rewrite count_existing_results_eq. fold total_prompts. cbn [text_of].
  destruct (STOP_AFTER_LIMIT cfg) eqn:Estop.
  - destruct (Z.leb_spec (OUTPUT_LIMIT cfg) (record_count f)); cbn [orb];
      [discriminate|].
    destruct (Z.leb_spec (OUTPUT_LIMIT cfg - record_count f) 0); cbn [orb];
      [discriminate|].
    destruct (Z.leb_spec total_prompts (record_count f)); [discriminate|].
    intros _. split; [lia|].
    rewrite process_remaining_run by lia.
    now rewrite Estop.
  - destruct (Z.leb_spec (total_prompts - record_count f) 0); cbn [orb];
      [discriminate|].
    destruct (Z.leb_spec total_prompts (record_count f)); [discriminate|].
    intros _. split; [lia|].
    rewrite process_remaining_run by lia.
    now rewrite Estop, Z.min_id.
Qed.

(** In every run the ledger grows by ledger lines, at most one for each
    request, and the requests are indexed prompts from the count on. *)
Lemma process_prompts_effects f :
  let r := process_prompts cfg create prompts f in
  exists ws k,
    ledger r = Some (text_of f ++ concat ws)
    /\ Forall ledger_line ws
    /\ (length ws <= k)%nat
    /\ submitted r = indexed_prompts prompts (Z.to_nat (record_count f)) k
    /\ Z.of_nat k <= Z.max 0 (remaining cfg (record_count f) total_prompts)
    /\ record_count f + Z.of_nat k <= Z.max (record_count f) total_prompts.
Proof.
  pose proof (record_count_nonneg f) as Hnn.
  destruct (initial_noop cfg (record_count f) total_prompts) eqn:E.
  - destruct (process_prompts_noop f E) as (H1 & H2 & _).
    exists [], 0%nat. cbn [concat length]. rewrite app_nil_r.
    repeat split; auto; lia.
  - destruct (process_prompts_run f E) as ((Hr & Hle) & ->).
    cbn [ledger submitted].
    set (pc := record_count f) in *.
    set (n := Z.to_nat (remaining cfg pc total_prompts)) in *.
    set (items := enumerate (firstn n (skipn (Z.to_nat pc) prompts))).
    destruct (run_loop_ledger_lines create pc items) as [Hl Hlen].
    destruct (reached_prefix create items) as (k & Hk & Hreach).
    rewrite run_loop_calls, length_map, Hreach in Hlen.
    rewrite run_loop_calls, Hreach.
    unfold items, enumerate in *.
    rewrite enumerate_length, length_firstn, length_skipn in Hk.
    rewrite enumerate_firstn, firstn_firstn in *.
    rewrite enumerate_length, length_firstn, length_skipn in Hlen.
    exists (written (run_loop create pc
                      (enumerate_from 0 (firstn n (skipn (Z.to_nat pc) prompts))))),
      (Nat.min k n).
    repeat split; auto; try (unfold total_prompts in *; lia).
    pose proof (calls_indexed prompts (Z.to_nat pc) (Nat.min k n) 0) as Hc.
    rewrite Nat.add_0_r, Z2Nat.id in Hc by lia.
    apply Hc. unfold total_prompts in *. lia.
Qed.

End Runs.

(** ** The ledger count *)

Section Count.

Lemma record_count_text_of f : record_count (Some (text_of f)) = record_count f.
Proof. now destruct f. Qed.

Lemma filter_nonblank lines :
  filter nonblank lines = filter has_nonspace lines.
Proof. apply filter_ext. intro. apply nonblank_has_nonspace. Qed.

(** C8: [count_existing_results] creates a missing ledger empty and returns
    0; for an existing ledger it leaves the file as it is and returns the
    number of lines that hold a character other than white space.  Blank
    lines are passed over: a blank line put between two complete lines does
    not change the count. *)
Theorem count_existing_results_counts :
  count_existing_results None = (Some [], 0)
  /\ (forall text,
        count_existing_results (Some text)
        = (Some text,
           Z.of_nat (length (filter has_nonspace (readlines text)))))
  /\ (forall before blank after,
        newline_terminated before ->
        has_nonspace blank = false -> newline_free blank = true ->
        record_count (Some (before ++ (blank ++ [NL]) ++ after))
        = record_count (Some (before ++ after))).
Proof.
  split; [reflexivity|]. split.
  - intro text. unfold count_existing_results.
    now rewrite sum_ones_length, filter_nonblank.
  - intros before blank after Hb Hs Hn.
    apply newline_terminated_pending in Hb.
    rewrite !record_count_scan, !closed_lines_app, !pending_after_app, Hb.
    destruct (scan_body blank Hn false) as [E1 E2].
    rewrite E1, E2, Hs. reflexivity.
Qed.

Lemma count_existing_results_counts_witness :
  newline_terminated (str "x" ++ [NL])
  /\ has_nonspace (str "  ") = false
  /\ newline_free (str "  ") = true
  /\ record_count
       (Some ((str "x" ++ [NL]) ++ (str "  " ++ [NL]) ++ str "y" ++ [NL]))
     = record_count (Some ((str "x" ++ [NL]) ++ str "y" ++ [NL])).
Proof.
  assert (H : newline_terminated (str "x" ++ [NL]))
    by (right; exists (str "x"); reflexivity).
  split; [exact H|]. split; [reflexivity|]. split; [reflexivity|].
  apply (proj2 (proj2 count_existing_results_counts) _ _ _ H);
    reflexivity.
Defined.

End Count.

(** ** The output limit *)

Section Limit.

Lemma process_prompts_count_le cfg create prompts f :
  STOP_AFTER_LIMIT cfg = true ->
  record_count (ledger (process_prompts cfg create prompts f))
  <= Z.max (record_count f) (OUTPUT_LIMIT cfg).
Proof.
  intro Hstop.
  destruct (process_prompts_effects cfg create prompts f)
    as (ws & k & Hl & Hw & Hlen & _ & Hk & _).
  rewrite Hl.
  pose proof (record_count_append_le (text_of f) ws Hw) as Hc.
  rewrite record_count_text_of in Hc.
  unfold remaining in Hk. rewrite Hstop in Hk. lia.
Qed.

(** C1, amended: with the limit enabled and a starting ledger that holds at
    most [OUTPUT_LIMIT] records, the ledger holds at most [OUTPUT_LIMIT]
    records after a run, and after any sequence of runs. *)
Theorem limit_invariant cfg f :
  STOP_AFTER_LIMIT cfg = true ->
  record_count f <= OUTPUT_LIMIT cfg ->
  (forall create prompts,
      record_count (ledger (process_prompts cfg create prompts f))
      <= OUTPUT_LIMIT cfg)
  /\ (forall runs, record_count (run_sequence cfg runs f) <= OUTPUT_LIMIT cfg).
Proof.
  intros Hstop Hf. split.
  - intros create prompts.
    pose proof (process_prompts_count_le cfg create prompts f Hstop). lia.
  - intro runs. revert f Hf.
    induction runs as [|[create prompts] runs IH]; intros f Hf; [exact Hf|].
    cbn [run_sequence]. apply IH.
    pose proof (process_prompts_count_le cfg create prompts f Hstop). lia.
Qed.

Lemma limit_invariant_witness :
  STOP_AFTER_LIMIT (limited 3) = true
  /\ record_count (Some two_records) <= OUTPUT_LIMIT (limited 3)
  /\ record_count
       (ledger (process_prompts (limited 3) echo four_prompts (Some two_records)))
     <= OUTPUT_LIMIT (limited 3)
  /\ record_count
       (run_sequence (limited 3)
          [(times_out_on (str "b"), four_prompts); (echo, four_prompts)]
          (Some two_records))
     <= OUTPUT_LIMIT (limited 3).
Proof.
  assert (H : record_count (Some two_records) <= OUTPUT_LIMIT (limited 3))
    by (vm_compute; discriminate).
  split; [reflexivity|]. split; [exact H|]. split.
  - apply (proj1 (limit_invariant (limited 3) (Some two_records) eq_refl H)).
  - apply (proj2 (limit_invariant (limited 3) (Some two_records) eq_refl H)).
Defined.

(** C1 as stated fails: a starting ledger of two records is above a limit of
    one, and the run leaves it as it is. *)
Lemma limit_exceeded_by_starting_ledger :
  ~ (STOP_AFTER_LIMIT (limited 1) = true ->
     record_count
       (ledger (process_prompts (limited 1) echo four_prompts (Some two_records)))
     <= OUTPUT_LIMIT (limited 1)).
Proof.
  intro H. specialize (H eq_refl). vm_compute in H. apply H. reflexivity.
Qed.

End Limit.

(** ** Which prompts are submitted *)

Section Submission.

Lemma indexed_prompts_in prompts start n call :
  In call (indexed_prompts prompts start n) ->
  exists i, (start <= i < start + n)%nat
            /\ call = (Z.of_nat i + 1, nth i prompts []).
Proof.
  unfold indexed_prompts. intro H. apply in_map_iff in H as (i & <- & Hi).
  apply in_seq in Hi. eauto.
Qed.

(** C2: every request of a run is for a source index at or after the count
    the run started from, and carries the prompt at that index; no index
    below the count is among the requests. *)
Theorem no_resubmission cfg create prompts f :
  let r := process_prompts cfg create prompts f in
  let processed_count := record_count f in
  Forall (fun call =>
            processed_count <= source_index call
            /\ nth_error prompts (Z.to_nat (source_index call)) = Some (snd call))
         (submitted r)
  /\ (forall i, i < processed_count -> ~ In i (map source_index (submitted r))).
Proof.
  intros r pc.
  pose proof (record_count_nonneg f) as Hnn.
  destruct (process_prompts_effects cfg create prompts f)
    as (ws & k & _ & _ & _ & Hs & _ & Hk).
  fold r pc in Hs, Hk.
  assert (G : forall call, In call (submitted r) ->
            pc <= source_index call
            /\ nth_error prompts (Z.to_nat (source_index call)) = Some (snd call)).
  { intros call Hin. rewrite Hs in Hin.
    apply indexed_prompts_in in Hin as (i & Hi & ->).
    unfold source_index. cbn [fst snd]. split; [lia|].
    replace (Z.to_nat (Z.of_nat i + 1 - 1)) with i by lia.
    apply nth_error_nth'. lia. }
  split.
  - apply Forall_forall. exact G.
  - intros i Hi Hin. apply in_map_iff in Hin as (call & <- & Hin).
    apply G in Hin. lia.
Qed.

Lemma no_resubmission_witness :
  1 < record_count (Some two_records)
  /\ ~ In 1 (map source_index
               (submitted (process_prompts unlimited echo four_prompts
                             (Some two_records)))).
Proof.
  split; [reflexivity|].
  apply (proj2 (no_resubmission unlimited echo four_prompts (Some two_records))).
  reflexivity.
Defined.

End Submission.

(** ** The working slice *)

Section WorkingSlice.

Variable cfg : config.
Variable create : service.
Variable prompts : list pystr.
Variable f : file.

Let total_prompts := Z.of_nat (length prompts).
Let processed_count := record_count f.
Let r := process_prompts cfg create prompts f.

(** The closing report tells whether the loop was interrupted. *)
Lemma output_interrupt :
  initial_noop cfg processed_count total_prompts = false ->
  existsb is_interrupt (output r)
  = interrupted
      (run_loop create processed_count
         (enumerate (firstn (Z.to_nat (remaining cfg processed_count total_prompts))
                       (skipn (Z.to_nat processed_count) prompts)))).
Proof.
  intro E. unfold r.
  destruct (process_prompts_run cfg create prompts f E) as (_ & ->).
  cbn [output existsb is_interrupt orb].
  rewrite !existsb_app, run_loop_events_interrupt. cbn [orb].
  unfold processed_count, total_prompts.
  match goal with |- context [interrupted ?e] => destruct (interrupted e) end;
    [reflexivity|].
  now destruct (STOP_AFTER_LIMIT cfg && _)%bool.
Qed.

(** An uninterrupted run requests the whole working slice and writes what
    the loop body writes for each of its items. *)
Lemma uninterrupted_run :
  initial_noop cfg processed_count total_prompts = false ->
  existsb is_interrupt (output r) = false ->
  let n := Z.to_nat (remaining cfg processed_count total_prompts) in
  let items := enumerate (firstn n (skipn (Z.to_nat processed_count) prompts)) in
  submitted r = indexed_prompts prompts (Z.to_nat processed_count) n
  /\ ledger r
     = Some (text_of f
             ++ concat (flat_map
                          (fun item =>
                             written (process_item create processed_count item))
                          items)).
Proof.
  intros E Hi n items. rewrite (output_interrupt E) in Hi.
  pose proof (record_count_nonneg f) as Hnn.
  unfold r. destruct (process_prompts_run cfg create prompts f E)
    as ((_ & Hle) & ->).
  cbn [submitted ledger].
  subst items n. unfold processed_count, total_prompts in *.
  rewrite run_loop_calls, run_loop_written, (run_loop_interrupted _ _ _ Hi).
  split; [|reflexivity].
  pose proof (calls_indexed prompts (Z.to_nat (record_count f))) as Hc.
  specialize (Hc (Z.to_nat (remaining cfg (record_count f)
                              (Z.of_nat (length prompts)))) 0%nat).
  rewrite Nat.add_0_r, Z2Nat.id in Hc by exact Hnn.
  apply Hc. lia.
Qed.

(** C3, amended: a run that passes the initial checks submits a prefix of
    the working slice, the prompts at the indices from [processed_count] on,
    at most [remaining] of them; when the run is not interrupted it submits
    exactly the [remaining] prompts of the slice.  The slice lies within the
    source sequence. *)
Theorem working_slice_submitted :
  initial_noop cfg processed_count total_prompts = false ->
  let n := Z.to_nat (remaining cfg processed_count total_prompts) in
  (exists k, (k <= n)%nat
             /\ submitted r = indexed_prompts prompts (Z.to_nat processed_count) k)
  /\ (existsb is_interrupt (output r) = false ->
      submitted r = indexed_prompts prompts (Z.to_nat processed_count) n)
  /\ 0 < remaining cfg processed_count total_prompts
  /\ processed_count + remaining cfg processed_count total_prompts
     <= total_prompts.
Proof.
  intros E n. split; [|split; [|split]].
  - destruct (process_prompts_effects cfg create prompts f)
      as (ws & k & _ & _ & _ & Hs & Hk & _).
    exists k. split; [|exact Hs].
    fold total_prompts processed_count in Hk. subst n. lia.
  - intro Hi. apply (uninterrupted_run E Hi).
  - apply (process_prompts_run cfg create prompts f E).
  - destruct (process_prompts_run cfg create prompts f E) as ((H0 & Hle) & _).
    fold total_prompts processed_count in H0, Hle. lia.
Qed.

End WorkingSlice.

Lemma working_slice_submitted_witness :
  initial_noop (limited 3) (record_count None) (Z.of_nat (length four_prompts))
  = false
  /\ existsb is_interrupt
       (output (process_prompts (limited 3) (times_out_on (str "b"))
                  four_prompts None)) = false
  /\ submitted (process_prompts (limited 3) (times_out_on (str "b"))
                  four_prompts None)
     = indexed_prompts four_prompts 0 3.
Proof.
  split; [reflexivity|]. split; [reflexivity|].
  apply (working_slice_submitted (limited 3) (times_out_on (str "b"))
           four_prompts None eq_refl).
  reflexivity.
Defined.

(** C3 as stated fails: a run interrupted during its first request has
    passed the initial checks and has not submitted the whole slice. *)
Lemma interrupted_run_submits_less :
  ~ (initial_noop unlimited (record_count None) (Z.of_nat (length four_prompts))
     = false ->
     submitted (process_prompts unlimited interrupted_service four_prompts None)
     = indexed_prompts four_prompts (Z.to_nat (record_count None))
         (Z.to_nat (remaining unlimited (record_count None)
                      (Z.of_nat (length four_prompts))))).
Proof.
  intro H. specialize (H eq_refl). vm_compute in H. discriminate H.
Qed.

(** ** Resuming *)

Section Resume.

Variable cfg : config.
Variable prompts : list pystr.

Let total_prompts := Z.of_nat (length prompts).

(** Once the whole working slice has been added to the count, the initial
    checks end the next run. *)
Lemma noop_after_full_slice pc :
  initial_noop cfg pc total_prompts = false ->
  initial_noop cfg (pc + remaining cfg pc total_prompts) total_prompts = true.
Proof.
  unfold initial_noop, remaining.
  destruct (STOP_AFTER_LIMIT cfg); intro H;
    repeat match goal with
           | |- context [Z.leb ?a ?b] => destruct (Z.leb_spec a b)
           | H : context [Z.leb ?a ?b] |- _ => destruct (Z.leb_spec a b)
           end; cbn [orb] in *; try reflexivity; try discriminate; lia.
Qed.

(** C4, amended: after a run that was not interrupted and skipped no item,
    on a ledger that was empty or ended with a newline, a second run over
    the same prompts, whatever the service answers, submits nothing and
    leaves the ledger as the first run left it. *)
Theorem resume_after_clean_run (create create' : service) (f : file) :
  let r1 := process_prompts cfg create prompts f in
  newline_terminated (text_of f) ->
  forallb clean_event (output r1) = true ->
  let r2 := process_prompts cfg create' prompts (ledger r1) in
  ledger r2 = ledger r1 /\ submitted r2 = [].
Proof.
  intros r1 Hnl Hclean r2.
  pose proof (record_count_nonneg f) as Hnn.
  destruct (initial_noop cfg (record_count f) total_prompts) eqn:E.
  - destruct (process_prompts_noop cfg create prompts f E) as (H1 & _).
    fold r1 in H1. unfold r2. rewrite H1.
    rewrite <- record_count_text_of in E.
    destruct (process_prompts_noop cfg create' prompts _ E) as (H2 & H3 & _).
    now rewrite H2, H3.
  - destruct (process_prompts_run cfg create prompts f E) as ((Hr & Hle) & Hrun).
    fold r1 total_prompts in Hrun, Hle, Hr.
    set (n := Z.to_nat (remaining cfg (record_count f) total_prompts)) in *.
    set (items := enumerate (firstn n (skipn (Z.to_nat (record_count f)) prompts)))
      in *.
    set (e := run_loop create (record_count f) items) in *.
    rewrite Hrun in Hclean. cbn [output forallb] in Hclean.
    rewrite !forallb_app in Hclean.
    apply andb_true_iff in Hclean as [_ Hclean].
    apply andb_true_iff in Hclean as [Hev Hclean].
    apply andb_true_iff in Hclean as [Hclosing _].
    assert (Hint : interrupted e = false)
      by (destruct (interrupted e); [discriminate Hclosing|reflexivity]).
    assert (Hlen : length (written e) = n).
    { unfold e. rewrite (run_loop_clean create (record_count f) items Hev Hint).
      unfold items, enumerate.
      rewrite enumerate_length, length_firstn, length_skipn.
      unfold total_prompts in *. lia. }
    destruct (run_loop_ledger_lines create (record_count f) items) as [Hl _].
    fold e in Hl.
    assert (Hcount : record_count (ledger r1)
                     = record_count f + remaining cfg (record_count f) total_prompts).
    { rewrite Hrun. cbn [ledger].
      rewrite record_count_append_terminated
        by (auto using newline_terminated_pending).
      rewrite record_count_text_of, Hlen. unfold total_prompts in *. lia. }
    apply noop_after_full_slice in E. rewrite <- Hcount in E.
    destruct (process_prompts_noop cfg create' prompts _ E) as (H2 & H3 & _).
    fold r2 in H2, H3. split; [|exact H3].
    rewrite H2, Hrun. reflexivity.
Qed.

End Resume.

Lemma resume_after_clean_run_witness :
  newline_terminated (text_of (Some two_records))
  /\ forallb clean_event
       (output (process_prompts (limited 3) echo four_prompts (Some two_records)))
     = true
  /\ ledger (process_prompts (limited 3) (times_out_on (str "c")) four_prompts
               (ledger (process_prompts (limited 3) echo four_prompts
                          (Some two_records))))
     = ledger (process_prompts (limited 3) echo four_prompts (Some two_records)).
Proof.
  assert (H : newline_terminated (text_of (Some two_records))).
  { right. exists (removelast two_records). reflexivity. }
  split; [exact H|]. split; [reflexivity|].
  apply (resume_after_clean_run (limited 3) four_prompts echo
           (times_out_on (str "c")) (Some two_records) H eq_refl).
Defined.

(** C4 as stated fails: with a service that is a function of the prompt and
    times out on the first of four prompts, the second run submits the last
    prompt again and appends a second record for it. *)
Lemma second_run_duplicates :
  let create := times_out_on (str "a") in
  let r1 := process_prompts unlimited create four_prompts None in
  let r2 := process_prompts unlimited create four_prompts (ledger r1) in
  ~ (ledger r2 = ledger r1)
  /\ submitted r2 = [(4, str "d")]
  /\ text_of (ledger r2)
     = text_of (ledger r1) ++ string_record (str "d") (str "gpt-4o") (str "d").
Proof.
  cbv zeta. split; [|split]; [|reflexivity|reflexivity].
  intro H. vm_compute in H. discriminate H.
Qed.

(** ** Skipped and completed items *)

Section Items.

Variable create : service.
Variable processed_count : Z.

Lemma process_item_skips index prompt :
  skips (create index prompt) = true ->
  let e := process_item create processed_count (index, prompt) in
  written e = [] /\ interrupted e = false
  /\ calls e = [call_of processed_count (index, prompt)].
Proof.
  intros H e. subst e. rewrite process_item_calls.
  unfold process_item. unfold skips in H.
  destruct (create index prompt) as [resp| | |]; try discriminate; auto.
  destruct (choices resp); [auto|discriminate].
Qed.

Lemma process_item_completes index prompt resp :
  create index prompt = Returns resp -> choices resp <> [] ->
  written (process_item create processed_count (index, prompt))
  = [line_of prompt resp].
Proof.
  intros H Hc. rewrite process_item_written, H.
  destruct (choices resp); [contradiction|reflexivity].
Qed.

Lemma line_of_text prompt resp first rest text :
  choices resp = first :: rest ->
  message first = Some {| content := Some text |} ->
  line_of prompt resp = string_record prompt (model resp) text.
Proof.
  intros Hc Hm. unfold line_of, string_record, record_of, message_content_of.
  now rewrite Hc, Hm.
Qed.

Lemma line_of_bare prompt resp first rest :
  choices resp = first :: rest -> message first = None ->
  line_of prompt resp = string_record prompt (model resp) [].
Proof.
  intros Hc Hm. unfold line_of, string_record, record_of, message_content_of.
  now rewrite Hc, Hm.
Qed.

End Items.

Section Skipping.

(** The ledger of the four-prompt scenario, by the position that timed out. *)
Lemma four_prompt_ledger cfg create f p0 p1 p2 p3 :
  text_of f = [] ->
  (STOP_AFTER_LIMIT cfg = true -> 4 <= OUTPUT_LIMIT cfg) ->
  existsb is_interrupt (output (process_prompts cfg create [p0; p1; p2; p3] f))
  = false ->
  ledger (process_prompts cfg create [p0; p1; p2; p3] f)
  = Some (concat (flat_map
                    (fun item => written (process_item create 0 item))
                    [(0, p0); (1, p1); (2, p2); (3, p3)]%nat)).
Proof.
  intros Hf Hlim Hi.
  assert (Hc : record_count f = 0) by (destruct f; cbn in Hf; subst; reflexivity).
  assert (Hrem : remaining cfg 0 4 = 4).
  { unfold remaining. destruct (STOP_AFTER_LIMIT cfg); [|reflexivity].
    specialize (Hlim eq_refl). lia. }
  assert (E : initial_noop cfg (record_count f) (Z.of_nat (length [p0; p1; p2; p3]))
              = false).
  { rewrite Hc. unfold initial_noop. cbn [length Z.of_nat Pos.of_succ_nat Pos.succ].
    destruct (STOP_AFTER_LIMIT cfg); [|reflexivity].
    specialize (Hlim eq_refl).
    destruct (Z.leb_spec (OUTPUT_LIMIT cfg) 0); [lia|].
    destruct (Z.leb_spec (OUTPUT_LIMIT cfg - 0) 0); [lia|]. reflexivity. }
  destruct (uninterrupted_run cfg create _ f E Hi) as [_ Hl].
  rewrite Hl, Hc, Hf.
  change (Z.of_nat (length [p0; p1; p2; p3])) with 4. rewrite Hrem.
  reflexivity.
Qed.

(** C5: an item whose request times out, fails or returns no choice writes
    nothing, and the loop goes on after one request for it.  In a run that
    is not interrupted every prompt of the working slice is requested once,
    in order, and the ledger grows by what the loop body writes for each.
    With four prompts, an empty ledger and room for four records, when one
    request times out and the other three return a choice, the ledger holds
    the three records of the other prompts in their order. *)
Theorem skipped_items_leave_no_record :
  (forall create processed_count index prompt,
      skips (create index prompt) = true ->
      let e := process_item create processed_count (index, prompt) in
      written e = [] /\ interrupted e = false
      /\ calls e = [call_of processed_count (index, prompt)])
  /\ (forall cfg create prompts f,
        let pc := record_count f in
        let total := Z.of_nat (length prompts) in
        let r := process_prompts cfg create prompts f in
        let n := Z.to_nat (remaining cfg pc total) in
        initial_noop cfg pc total = false ->
        existsb is_interrupt (output r) = false ->
        submitted r = indexed_prompts prompts (Z.to_nat pc) n
        /\ ledger r
           = Some (text_of f
                   ++ concat (flat_map
                                (fun item => written (process_item create pc item))
                                (enumerate (firstn n (skipn (Z.to_nat pc) prompts))))))
  /\ (forall cfg create f p0 p1 p2 p3 (j : nat) (resp : nat -> response),
        let prompts := [p0; p1; p2; p3] in
        text_of f = [] ->
        (STOP_AFTER_LIMIT cfg = true -> 4 <= OUTPUT_LIMIT cfg) ->
        (j < 4)%nat ->
        create j (nth j prompts []) = RaisesTimeout ->
        (forall i, (i < 4)%nat -> i <> j ->
                   create i (nth i prompts []) = Returns (resp i)
                   /\ choices (resp i) <> []) ->
        ledger (process_prompts cfg create prompts f)
        = Some (concat (map (fun i => line_of (nth i prompts []) (resp i))
                          (filter (fun i => negb (i =? j)%nat) [0; 1; 2; 3]%nat)))).
Proof.
  split; [|split].
  - intros. now apply process_item_skips.
  - intros cfg create prompts f pc total r n E Hi.
    apply (uninterrupted_run cfg create prompts f E Hi).
  - intros cfg create f p0 p1 p2 p3 j resp prompts Hf Hlim Hj Ht Hr.
    assert (Hok : forall i, (i < 4)%nat -> i <> j ->
              written (process_item create 0 (i, nth i prompts []))
              = [line_of (nth i prompts []) (resp i)]
              /\ interrupted (process_item create 0 (i, nth i prompts [])) = false).
    { intros i Hi Hne. destruct (Hr i Hi Hne) as [H1 H2]. split.
      - now apply process_item_completes.
      - rewrite process_item_interrupted. now rewrite H1. }
    assert (Hbad : written (process_item create 0 (j, nth j prompts [])) = []
                   /\ interrupted (process_item create 0 (j, nth j prompts []))
                      = false).
    { split; [rewrite process_item_written|rewrite process_item_interrupted];
        now rewrite Ht. }
    assert (Hall : forall i, (i < 4)%nat ->
              interrupted (process_item create 0 (i, nth i prompts [])) = false).
    { intros i Hi. destruct (Nat.eq_dec i j) as [->|Hne];
        [apply Hbad|now apply Hok]. }
    assert (Hint : existsb is_interrupt
                     (output (process_prompts cfg create prompts f)) = false).
    { assert (Hc : record_count f = 0)
        by (destruct f; cbn in Hf; subst; reflexivity).
      assert (E : initial_noop cfg (record_count f) (Z.of_nat (length prompts))
                  = false).
      { rewrite Hc. unfold initial_noop.
        change (Z.of_nat (length prompts)) with 4.
        destruct (STOP_AFTER_LIMIT cfg); [|reflexivity].
        specialize (Hlim eq_refl).
        destruct (Z.leb_spec (OUTPUT_LIMIT cfg) 0); [lia|].
        destruct (Z.leb_spec (OUTPUT_LIMIT cfg - 0) 0); [lia|]. reflexivity. }
      rewrite (output_interrupt cfg create prompts f E), Hc.
      change (Z.of_nat (length prompts)) with 4.
      replace (remaining cfg 0 4) with 4
        by (unfold remaining; destruct (STOP_AFTER_LIMIT cfg);
            [specialize (Hlim eq_refl); lia|reflexivity]).
      change (Z.to_nat 4) with 4%nat. change (Z.to_nat 0) with 0%nat.
      cbn [firstn skipn prompts enumerate enumerate_from run_loop].
      pose proof (Hall 0%nat ltac:(lia)) as H0.
      pose proof (Hall 1%nat ltac:(lia)) as H1.
      pose proof (Hall 2%nat ltac:(lia)) as H2.
      pose proof (Hall 3%nat ltac:(lia)) as H3.
      cbn [nth prompts] in H0, H1, H2, H3.
      rewrite H0. cbn [then_effects interrupted].
      rewrite H1. cbn [then_effects interrupted].
      rewrite H2. cbn [then_effects interrupted].
      rewrite H3. reflexivity. }
    subst prompts.
    rewrite (four_prompt_ledger cfg create f p0 p1 p2 p3 Hf Hlim Hint).
    f_equal. cbn [flat_map].
    destruct j as [|[|[|[|j]]]]; [| | | |lia];
      cbn [filter Nat.eqb negb map];
      repeat match goal with
             | |- context [written (process_item create 0 (?i, ?p))] =>
                 first
                   [ rewrite (proj1 Hbad : written (process_item create 0 (i, p)) = _)
                   | rewrite (proj1 (Hok i ltac:(lia) ltac:(lia))
                              : written (process_item create 0 (i, p)) = _) ]
             end;
      reflexivity.
Qed.

Lemma skipped_items_leave_no_record_witness :
  let create := times_out_on (str "b") in
  let r := process_prompts unlimited create four_prompts None in
  (skips (create 1%nat (str "b")) = true
   /\ initial_noop unlimited (record_count None) 4 = false
   /\ existsb is_interrupt (output r) = false
   /\ text_of None = []
   /\ (STOP_AFTER_LIMIT unlimited = true -> 4 <= OUTPUT_LIMIT unlimited)
   /\ (1 < 4)%nat
   /\ create 1%nat (str "b") = RaisesTimeout)
  /\ written (process_item create 0 (1%nat, str "b")) = []
  /\ submitted r = indexed_prompts four_prompts 0 4
  /\ ledger r
     = Some (line_of (str "a") (answer (str "a"))
             ++ line_of (str "c") (answer (str "c"))
             ++ line_of (str "d") (answer (str "d"))).
Proof.
  cbv zeta. split; [repeat split; (reflexivity || discriminate || lia)|].
  split; [|split].
  - apply (proj1 skipped_items_leave_no_record (times_out_on (str "b")) 0 1%nat
             (str "b") eq_refl).
  - apply (proj1 (proj2 skipped_items_leave_no_record) unlimited
             (times_out_on (str "b")) four_prompts None eq_refl eq_refl).
  - apply (proj2 (proj2 skipped_items_leave_no_record) unlimited
             (times_out_on (str "b")) None (str "a") (str "b") (str "c") (str "d")
             1%nat (fun i => answer (nth i four_prompts [])) eq_refl
             ltac:(discriminate) ltac:(repeat constructor) eq_refl).
    intros i Hi Hne.
    destruct i as [|[|[|[|i]]]]; try lia; split; (reflexivity || discriminate).
Defined.

End Skipping.

(** ** The closing report *)

Section Report.

(** When the runner prints that the limit was reached: the run passed the
    initial checks, was not interrupted, the limit is enabled, and the count
    at the start plus the size of the working slice is at least the limit.
    The number of records written does not enter. *)
Lemma limit_report_condition cfg create prompts f :
  let pc := record_count f in
  let total := Z.of_nat (length prompts) in
  let r := process_prompts cfg create prompts f in
  existsb is_limit_report (output r)
  = negb (initial_noop cfg pc total)
    && negb (existsb is_interrupt (output r))
    && STOP_AFTER_LIMIT cfg
    && (OUTPUT_LIMIT cfg <=? pc + remaining cfg pc total).
Proof.
  intros pc total r. subst pc total r.
  destruct (initial_noop cfg (record_count f) (Z.of_nat (length prompts))) eqn:E.
  - destruct (process_prompts_noop cfg create prompts f E) as (_ & _ & [H|H]);
      now rewrite H.
  - rewrite (output_interrupt cfg create prompts f E).
    destruct (process_prompts_run cfg create prompts f E) as ((Hr & _) & Hrun).
    rewrite Hrun. cbn [output existsb is_limit_report negb andb orb].
    rewrite !existsb_app.
    set (e := run_loop create (record_count f) _).
    assert (Hev : existsb is_limit_report (events e) = false)
      by apply run_loop_events_report.
    rewrite Hev. cbn [orb].
    rewrite Z2Nat.id by lia.
    destruct (interrupted e); [reflexivity|]. cbn [negb andb].
    destruct (STOP_AFTER_LIMIT cfg); cbn [andb]; [|reflexivity].
    match goal with |- context [Z.leb ?a ?b] => now destruct (Z.leb a b) end.
Qed.

(** C6, the run that shows the defect: limit 2, an empty ledger, two
    prompts, the first request times out.  The runner prints that the limit
    was reached although the ledger holds one record, below the limit. *)
Theorem limit_reported_below_limit :
  let r := process_prompts (limited 2) (times_out_on (str "a"))
             [str "a"; str "b"] None in
  existsb is_limit_report (output r) = true
  /\ record_count (ledger r) = 1
  /\ record_count (ledger r) < OUTPUT_LIMIT (limited 2).
Proof. cbv zeta. split; [reflexivity|]. split; reflexivity. Qed.

End Report.

(** ** The prompt cache *)

Section Cache.

(** A cache whose reading stops on malformed JSON or on an object without
    the key is replaced by a fresh fetch, as a missing cache is. *)
Lemma corrupt_cache_refetched py dataset text :
  read_cache py (readlines text) = inl JSONDecodeError
  \/ read_cache py (readlines text) = inl KeyError ->
  load_prompts py dataset (Some text) = load_prompts py dataset None.
Proof. unfold load_prompts. now intros [-> | ->]. Qed.

(** A line that decodes to something other than an object raises
    [TypeError] when subscripted. *)
Lemma cache_record_non_object py line v :
  loads py line = POk v [] ->
  (forall members, v <> JObject members) ->
  cache_record py line = inl TypeError.
Proof.
  intros H Hv. unfold cache_record. rewrite H.
  destruct v; try reflexivity. now destruct (Hv members).
Qed.

(** C7, the cache that shows the defect: a first line holding a JSON array
    and a second line of malformed JSON.  [load_prompts] ends with a
    [TypeError] and leaves the cache in place, where a cache with the
    malformed line alone is replaced by a fresh fetch. *)
Theorem non_object_line_not_recovered py dataset :
  load_prompts py dataset (Some array_then_malformed)
  = (Some array_then_malformed, inl TypeError)
  /\ load_prompts py dataset (Some (str "[]" ++ [NL]))
     = (Some (str "[]" ++ [NL]), inl TypeError)
  /\ load_prompts py dataset (Some malformed) = load_prompts py dataset None
  /\ load_prompts py dataset None
     = (Some (cache_text dataset), inr (map JString dataset)).
Proof.
  split; [reflexivity|]. split; [reflexivity|]. split; [|reflexivity].
  apply corrupt_cache_refetched. left. reflexivity.
Qed.

End Cache.

(** ** The records written *)

Section Records.

Variable cfg : config.
Variable create : service.
Variable prompts : list pystr.
Variable f : file.

Let pc := record_count f.
Let r := process_prompts cfg create prompts f.

(** Every run requests some items and writes what the loop body writes for
    them. *)
Lemma process_prompts_items :
  exists items,
    submitted r = map (call_of pc) items
    /\ ledger r
       = Some (text_of f
               ++ concat (flat_map
                            (fun item => written (process_item create pc item))
                            items)).
Proof.
  destruct (initial_noop cfg pc (Z.of_nat (length prompts))) eqn:E.
  - destruct (process_prompts_noop cfg create prompts f E) as (H1 & H2 & _).
    exists []. cbn [map flat_map concat]. rewrite app_nil_r. auto.
  - destruct (process_prompts_run cfg create prompts f E) as (_ & Hrun).
    unfold r. rewrite Hrun. cbn [submitted ledger].
    eexists. rewrite run_loop_calls, run_loop_written. split; reflexivity.
Qed.

Lemma call_of_injective item item' :
  call_of pc item = call_of pc item' -> item = item'.
Proof.
  destruct item as [i q], item' as [i' q']. unfold call_of. cbn [fst snd].
  intro H. injection H as H1 H2. f_equal; [lia|assumption].
Qed.

(** The line of a requested item is in the ledger, after the old text. *)
Lemma requested_item_line index prompt line :
  In (call_of pc (index, prompt)) (submitted r) ->
  written (process_item create pc (index, prompt)) = [line] ->
  exists before after,
    ledger r = Some (text_of f ++ before ++ line ++ after).
Proof.
  intros Hin Hw. destruct process_prompts_items as (items & Hs & Hl).
  rewrite Hs in Hin. apply in_map_iff in Hin as (item & Heq & Hin).
  apply call_of_injective in Heq. subst item.
  apply in_split in Hin as (l1 & l2 & ->).
  rewrite Hl, flat_map_app, concat_app. cbn [flat_map].
  rewrite Hw, concat_app. cbn [concat app]. rewrite app_nil_r.
  eauto.
Qed.

End Records.

Section Shape.

Lemma process_item_string_records create pc item :
  completes_with_text (create (fst item) (snd item)) = true ->
  exists records : list (list N * list N * list N),
    written (process_item create pc item)
    = map (fun rec => string_record (fst (fst rec)) (snd (fst rec)) (snd rec))
        records.
Proof.
  destruct item as [index prompt]. cbn [fst snd]. intro H.
  rewrite process_item_written. unfold completes_with_text in H.
  destruct (create index prompt) as [resp| | |]; try (now exists []).
  destruct (choices resp) as [|first rest] eqn:Hc; [now exists []|].
  destruct (message first) as [[[text|]]|] eqn:Hm; [| discriminate |].
  - exists [(prompt, model resp, text)]. cbn [map fst snd].
    now rewrite (line_of_text prompt resp first rest text Hc Hm).
  - exists [(prompt, model resp, [])]. cbn [map fst snd].
    now rewrite (line_of_bare prompt resp first rest Hc Hm).
Qed.

(** A message whose content is absent is written with [null] as output. *)
Lemma absent_content_written_as_null create pc index prompt resp first rest :
  create index prompt = Returns resp ->
  choices resp = first :: rest ->
  message first = Some {| content := None |} ->
  written (process_item create pc (index, prompt))
  = [dumps (JObject [(str "prompt", JString prompt);
                     (str "model", JString (model resp));
                     (str "output", JNull)]) ++ [NL]].
Proof.
  intros Hr Hc Hm.
  rewrite (process_item_completes create pc index prompt resp Hr)
    by (rewrite Hc; discriminate).
  unfold line_of, record_of, message_content_of. now rewrite Hc, Hm.
Qed.

(** A written line is read back by [json.loads] as the object it was
    serialised from, here with a quote, a backslash, a newline and a
    character beyond the basic plane in the text. *)
Lemma string_record_reads_back py :
  loads py (string_record (str "2 + 2?") (str "gpt-4o") [34; 92; 10; 128512]%N)
  = POk (JObject [(str "prompt", JString (str "2 + 2?"));
                  (str "model", JString (str "gpt-4o"));
                  (str "output", JString [34; 92; 10; 128512]%N)]) [].
Proof. vm_compute. reflexivity. Qed.

(** Completions that carry a text leave string records.  For a response
    with a choice whose message carries a text, the empty text included,
    the loop body writes one line: the serialised object with the keys
    [prompt], [model] and [output], each with a string value: the prompt,
    the model name of the response and the text.  That line is in the
    ledger after the run.  When every completion of the service carries a
    text or no message, what a run appends to the ledger is a sequence of
    such lines. *)
Lemma completed_items_write_string_records :
  (forall create pc index prompt resp first rest text,
      create index prompt = Returns resp ->
      choices resp = first :: rest ->
      message first = Some {| content := Some text |} ->
      written (process_item create pc (index, prompt))
      = [string_record prompt (model resp) text])
  /\ (forall cfg create prompts f index prompt resp first rest text,
        let r := process_prompts cfg create prompts f in
        In (call_of (record_count f) (index, prompt)) (submitted r) ->
        create index prompt = Returns resp ->
        choices resp = first :: rest ->
        message first = Some {| content := Some text |} ->
        exists before after,
          ledger r
          = Some (text_of f ++ before
                  ++ string_record prompt (model resp) text ++ after))
  /\ (forall cfg create prompts f,
        (forall index prompt, completes_with_text (create index prompt) = true) ->
        exists records : list (list N * list N * list N),
          ledger (process_prompts cfg create prompts f)
          = Some (text_of f
                  ++ concat (map (fun rec =>
                                    string_record (fst (fst rec)) (snd (fst rec))
                                      (snd rec))
                               records))).
Proof.
  assert (A : forall create pc index prompt resp first rest text,
             create index prompt = Returns resp ->
             choices resp = first :: rest ->
             message first = Some {| content := Some text |} ->
             written (process_item create pc (index, prompt))
             = [string_record prompt (model resp) text]).
  { intros create pc index prompt resp first rest text Hr Hc Hm.
    rewrite (process_item_completes create pc index prompt resp Hr)
      by (rewrite Hc; discriminate).
    now rewrite (line_of_text prompt resp first rest text Hc Hm). }
  split; [exact A|]. split.
  - intros cfg create prompts f index prompt resp first rest text r Hin Hr Hc Hm.
    apply (requested_item_line cfg create prompts f index prompt _ Hin).
    now apply (A create _ index prompt resp first rest text).
  - intros cfg create prompts f Hall.
    destruct (process_prompts_items cfg create prompts f) as (items & _ & ->).
    induction items as [|item items (records & IH)].
    + exists []. reflexivity.
    + destruct (process_item_string_records create (record_count f) item
                  (Hall _ _)) as (recs & Hrecs).
      exists (recs ++ records). cbn [flat_map].
      injection IH as IH. apply app_inv_head in IH.
      now rewrite map_app, !concat_app, Hrecs, IH.
Qed.

Lemma completed_items_write_string_records_witness :
  (echo 0%nat [] = Returns (answer [])
   /\ choices (answer []) = [{| message := Some {| content := Some [] |} |}]
   /\ In (call_of (record_count None) (1%nat, str "b"))
        (submitted (process_prompts unlimited echo four_prompts None))
   /\ (forall index prompt, completes_with_text (echo index prompt) = true))
  /\ written (process_item echo 0 (0%nat, []))
     = [string_record [] (str "gpt-4o") []]
  /\ (exists before after,
        ledger (process_prompts unlimited echo four_prompts None)
        = Some (text_of None ++ before
                ++ string_record (str "b") (str "gpt-4o") (str "b") ++ after))
  /\ (exists records : list (list N * list N * list N),
        ledger (process_prompts unlimited echo four_prompts None)
        = Some (text_of None
                ++ concat (map (fun rec =>
                                  string_record (fst (fst rec)) (snd (fst rec))
                                    (snd rec))
                             records))).
Proof.
  assert (Hin : In (call_of (record_count None) (1%nat, str "b"))
                  (submitted (process_prompts unlimited echo four_prompts None)))
    by (right; left; reflexivity).
  assert (Hall : forall index prompt,
             completes_with_text (echo index prompt) = true)
    by (intros; reflexivity).
  split; [repeat split; (reflexivity || assumption)|]. split; [|split].
  - apply (proj1 completed_items_write_string_records echo 0 0%nat []
             (answer []) _ [] [] eq_refl eq_refl eq_refl).
  - apply (proj1 (proj2 completed_items_write_string_records) unlimited echo
             four_prompts None 1%nat (str "b") (answer (str "b")) _ [] (str "b")
             Hin eq_refl eq_refl eq_refl).
  - apply (proj2 (proj2 completed_items_write_string_records) unlimited echo
             four_prompts None Hall).
Defined.

(** A record whose output is [null] is no record of three strings,
    whatever the strings. *)
Lemma null_record_not_string_record prompt model_name prompt' model_name' text :
  dumps (record_of prompt model_name JNull) ++ [NL]
  <> string_record prompt' model_name' text.
Proof.
  intro H. apply (f_equal (@rev N)) in H.
  unfold string_record, record_of in H.
  cbn [dumps map join fst snd] in H. unfold dumps_string in H.
  repeat (rewrite ?rev_app_distr in H; cbn [rev app str] in H).
  change (rev (str "null")) with [108; 108; 117; 110]%N in H.
  cbn [app] in H. discriminate H.
Qed.

(** C9: not every line appended to the ledger has a string as its output.
    The guard of line 151 replaces an absent message by the empty string
    and lets an absent content through.  For a completion whose message
    has no content the run of one prompt appends one line, the object whose
    [output] is [null], logs it as recorded and counts it as a record.
    [json.loads] reads [null] back under the key, and the line is the
    record of no three strings. *)
Theorem null_output_line_appended :
  let r := process_prompts unlimited no_content_service [str "a"] None in
  let line := dumps (record_of (str "a") (str "gpt-4o") JNull) ++ [NL] in
  completes (no_content_service 0%nat (str "a")) = true
  /\ ledger r = Some line
  /\ submitted r = [(1, str "a")]
  /\ In (LogRecorded 1 (str "gpt-4o")) (output r)
  /\ record_count (ledger r) = 1
  /\ (forall py,
        loads py line
        = POk (JObject [(str "prompt", JString (str "a"));
                        (str "model", JString (str "gpt-4o"));
                        (str "output", JNull)]) [])
  /\ (forall prompt model_name text,
        line <> string_record prompt model_name text).
Proof.
  cbv zeta. repeat split.
  - right. right. left. reflexivity.
  - intros prompt model_name text. apply null_record_not_string_record.
Qed.

(** C10: for a response with a choice whose first choice has no message,
    the loop body writes one line, the record of the prompt and the model
    name with the empty string as output, and that line is in the ledger
    after the run. *)
Theorem bare_choice_recorded :
  (forall create pc index prompt resp first rest,
      create index prompt = Returns resp ->
      choices resp = first :: rest ->
      message first = None ->
      written (process_item create pc (index, prompt))
      = [string_record prompt (model resp) []])
  /\ (forall cfg create prompts f index prompt resp first rest,
        let r := process_prompts cfg create prompts f in
        In (call_of (record_count f) (index, prompt)) (submitted r) ->
        create index prompt = Returns resp ->
        choices resp = first :: rest ->
        message first = None ->
        exists before after,
          ledger r
          = Some (text_of f ++ before
                  ++ string_record prompt (model resp) [] ++ after)).
Proof.
  assert (A : forall create pc index prompt resp first rest,
             create index prompt = Returns resp ->
             choices resp = first :: rest ->
             message first = None ->
             written (process_item create pc (index, prompt))
             = [string_record prompt (model resp) []]).
  { intros create pc index prompt resp first rest Hr Hc Hm.
    rewrite (process_item_completes create pc index prompt resp Hr)
      by (rewrite Hc; discriminate).
    now rewrite (line_of_bare prompt resp first rest Hc Hm). }
  split; [exact A|].
  intros cfg create prompts f index prompt resp first rest r Hin Hr Hc Hm.
  apply (requested_item_line cfg create prompts f index prompt _ Hin).
  now apply (A create _ index prompt resp first rest).
Qed.

Lemma bare_choice_recorded_witness :
  (In (call_of (record_count None) (0%nat, str "a"))
     (submitted (process_prompts unlimited bare_service four_prompts None))
   /\ bare_service 0%nat (str "a") = Returns bare_choice
   /\ choices bare_choice = [{| message := None |}])
  /\ written (process_item bare_service 0 (0%nat, str "a"))
     = [string_record (str "a") (str "gpt-4o") []]
  /\ exists before after,
       ledger (process_prompts unlimited bare_service four_prompts None)
       = Some (text_of None ++ before
               ++ string_record (str "a") (str "gpt-4o") [] ++ after).
Proof.
  assert (Hin : In (call_of (record_count None) (0%nat, str "a"))
                  (submitted (process_prompts unlimited bare_service
                                four_prompts None)))
    by (left; reflexivity).
  split; [split; [exact Hin|split; reflexivity]|]. split.
  - apply (proj1 bare_choice_recorded bare_service 0 0%nat (str "a")
             bare_choice _ [] eq_refl eq_refl eq_refl).
  - apply (proj2 bare_choice_recorded unlimited bare_service four_prompts None
             0%nat (str "a") bare_choice _ [] Hin eq_refl eq_refl eq_refl).
Defined.

End Shape.

(** * Further properties *)

(** ** Reading back what [json.dumps] wrote *)

Section ReadBack.

Local Open Scope N_scope.

Lemma hex_value_digit d : d < 16 -> hex_value (hex_digit d) = Some d.
Proof.
  intro Hd. unfold hex_digit, hex_value.
  destruct (N.ltb_spec d 10).
  - destruct (N.leb_spec 48 (48 + d)); [|lia].
    destruct (N.leb_spec (48 + d) 57); [|lia].
    cbn [andb]. f_equal. lia.
  - destruct (N.leb_spec 48 (87 + d)); [|lia].
    destruct (N.leb_spec (87 + d) 57); [lia|].
    destruct (N.leb_spec 97 (87 + d)); [|lia].
    destruct (N.leb_spec (87 + d) 102); [|lia].
    cbn [andb]. f_equal. lia.
Qed.

Lemma hex4_digits n :
  n < 65536 ->
  hex4 (hex_digit (N.land (N.shiftr n 12) 15))
       (hex_digit (N.land (N.shiftr n 8) 15))
       (hex_digit (N.land (N.shiftr n 4) 15))
       (hex_digit (N.land n 15))
  = Some n.
Proof.
  intro Hn. change 15 with (N.ones 4).
  rewrite !N.land_ones, !N.shiftr_div_pow2.
  change (2 ^ 4) with 16. change (2 ^ 8) with 256. change (2 ^ 12) with 4096.
  unfold hex4.
  rewrite !hex_value_digit by (apply N.mod_lt; discriminate).
  f_equal. zify. Z.to_euclidean_division_equations. lia.
Qed.

Lemma lor_shifted k x :
  x < 1024 -> N.lor (N.shiftl k 10) x = N.shiftl k 10 + x.
Proof.
  intro Hx.
  assert (H : N.land (N.shiftl k 10) x = 0).
  { apply N.bits_inj. intro i. rewrite N.land_spec, N.bits_0.
    destruct (N.lt_ge_cases i 10) as [Hi|Hi].
    - now rewrite N.shiftl_spec_low by exact Hi.
    - destruct (N.eq_dec x 0) as [->|Hne]; [now rewrite N.bits_0, andb_false_r|].
      rewrite (N.bits_above_log2 x i), andb_false_r; [reflexivity|].
      apply N.lt_le_trans with 10; [|exact Hi].
      apply N.log2_lt_pow2; [lia|exact Hx]. }
  rewrite <- N.lxor_lor by exact H. symmetry. now apply N.add_nocarry_lxor.
Qed.

(** A four-digit escape of a code unit that does not open a surrogate pair
    is read back as that code unit. *)
Lemma scanstring_u_escape n rest acc :
  n < 65536 -> is_high_surrogate n = false ->
  scanstring (u_escape n ++ rest) acc = scanstring rest (n :: acc).
Proof.
  intros Hn Hs. unfold u_escape.
  cbn [app scanstring N.eqb Pos.eqb].
  now rewrite (hex4_digits n Hn), Hs.
Qed.

(** The two escapes of a character beyond the basic plane are read back as
    that character. *)
Lemma scanstring_surrogate_pair c rest acc :
  65536 <= c < 1114112 ->
  scanstring
    (u_escape (N.lor 55296 (N.land (N.shiftr (c - 65536) 10) 1023))
     ++ u_escape (N.lor 56320 (N.land (c - 65536) 1023)) ++ rest) acc
  = scanstring rest (c :: acc).
Proof.
  intro Hc.
  change 1023 with (N.ones 10). rewrite !N.land_ones, N.shiftr_div_pow2.
  change (2 ^ 10) with 1024.
  set (x := (c - 65536) / 1024 mod 1024).
  set (y := (c - 65536) mod 1024).
  assert (Hx : x < 1024) by (apply N.mod_lt; discriminate).
  assert (Hy : y < 1024) by (apply N.mod_lt; discriminate).
  change 55296 with (N.shiftl 54 10). change 56320 with (N.shiftl 55 10).
  rewrite !lor_shifted by assumption.
  change (N.shiftl 54 10) with 55296. change (N.shiftl 55 10) with 56320.
  unfold u_escape at 1. cbn [app scanstring N.eqb Pos.eqb].
  rewrite (hex4_digits (55296 + x)) by lia.
  assert (Hhi : is_high_surrogate (55296 + x) = true).
  { unfold is_high_surrogate. apply andb_true_iff.
    split; apply N.leb_le; lia. }
  rewrite Hhi. unfold u_escape. cbn [app N.eqb Pos.eqb andb].
  rewrite (hex4_digits (56320 + y)) by lia.
  assert (Hlo : is_low_surrogate (56320 + y) = true).
  { unfold is_low_surrogate. apply andb_true_iff.
    split; apply N.leb_le; lia. }
  rewrite Hlo. f_equal. f_equal. unfold join_surrogates.
  subst x y. zify. Z.to_euclidean_division_equations. lia.
Qed.

(** One character of a string, escaped, is read back as itself. *)
Lemma scanstring_escape_char c rest acc :
  is_scalar c = true ->
  scanstring (escape_char c ++ rest) acc = scanstring rest (c :: acc).
Proof.
  intro Hc. unfold is_scalar in Hc. unfold escape_char.
  destruct (N.eqb_spec c 34) as [->|H34]; [reflexivity|].
  destruct (N.eqb_spec c 92) as [->|H92]; [reflexivity|].
  destruct ((32 <=? c) && (c <=? 126)) eqn:Hprintable.
  - apply andb_true_iff in Hprintable as [H1 H2].
    apply N.leb_le in H1.
    cbn [app scanstring].
    destruct (N.eqb_spec c 34); [contradiction|].
    destruct (N.eqb_spec c 92); [contradiction|].
    destruct (N.leb_spec c 31); [lia|reflexivity].
  - destruct (N.eqb_spec c 10) as [->|H10]; [reflexivity|].
    destruct (N.eqb_spec c 13) as [->|H13]; [reflexivity|].
    destruct (N.eqb_spec c 9) as [->|H9]; [reflexivity|].
    destruct (N.eqb_spec c 8) as [->|H8]; [reflexivity|].
    destruct (N.eqb_spec c 12) as [->|H12]; [reflexivity|].
    destruct (N.ltb_spec c 65536) as [Hlow|Hhigh].
    + apply scanstring_u_escape; [exact Hlow|].
      unfold is_high_surrogate.
      destruct (N.ltb_spec c 55296); cbn [orb] in Hc.
      * destruct (N.leb_spec 55296 c); [lia|reflexivity].
      * apply andb_true_iff in Hc as [Hc _]. apply N.leb_le in Hc.
        destruct (N.leb_spec c 56319); [lia|]. now rewrite andb_false_r.
    + rewrite <- app_assoc. apply scanstring_surrogate_pair.
      destruct (N.ltb_spec c 55296); cbn [orb] in Hc; [lia|].
      apply andb_true_iff in Hc as [_ Hc]. apply N.ltb_lt in Hc. lia.
Qed.

(** The body of a serialised string and its closing quote are read back as
    the string. *)
Lemma scanstring_dumps s : forall rest acc,
  scalar_text s = true ->
  scanstring (flat_map escape_char s ++ 34 :: rest) acc
  = POk (rev acc ++ s) rest.
Proof.
  induction s as [|c s IH]; intros rest acc Hs.
  - cbn [flat_map app scanstring N.eqb Pos.eqb]. now rewrite app_nil_r.
  - cbn [scalar_text forallb] in Hs. apply andb_true_iff in Hs as [Hc Hs].
    cbn [flat_map]. rewrite <- app_assoc, scanstring_escape_char by exact Hc.
    rewrite IH by exact Hs. cbn [rev]. now rewrite <- app_assoc.
Qed.

End ReadBack.

(** ** The prompt cache, written and read *)

Section CacheLines.

Lemma prompt_line_shape p :
  prompt_line p
  = [123; 34; 112; 114; 111; 109; 112; 116; 34; 58; 32; 34]%N
    ++ flat_map escape_char p ++ [34; 125; 10]%N.
Proof.
  unfold prompt_line. cbn [dumps map join fst snd].
  unfold dumps_string at 2.
  change (dumps_string (str "prompt"))
    with [34; 112; 114; 111; 109; 112; 116; 34]%N.
  change (str ": ") with [58; 32]%N. unfold NL.
  cbn [app]. do 12 f_equal. now rewrite <- !app_assoc.
Qed.

Lemma loads_prompt_shape py body p :
  (forall rest, scanstring (body ++ 34%N :: rest) [] = POk p rest) ->
  loads py ([123; 34; 112; 114; 111; 109; 112; 116; 34; 58; 32; 34]%N
         ++ body ++ [34; 125; 10]%N)
  = POk (JObject [(str "prompt", JString p)]) [].
Proof.
  intro H. unfold loads.
  cbn [app skip_ws is_ws N.eqb Pos.eqb orb length].
  simpl. rewrite (H [125; 10]%N). reflexivity.
Qed.

Lemma loads_prompt_line py p :
  scalar_text p = true ->
  loads py (prompt_line p) = POk (JObject [(str "prompt", JString p)]) [].
Proof.
  intro Hp. rewrite prompt_line_shape. apply loads_prompt_shape.
  intro rest. now rewrite scanstring_dumps.
Qed.

Lemma dict_get_single key v : dict_get key [(key, v)] = Some v.
Proof.
  cbn [dict_get]. destruct (list_eq_dec N.eq_dec key key); [reflexivity|].
  contradiction.
Qed.

Lemma cache_record_prompt_line py p :
  scalar_text p = true -> cache_record py (prompt_line p) = inr (JString p).
Proof.
  intro Hp. unfold cache_record. rewrite (loads_prompt_line py p Hp).
  unfold subscript. now rewrite dict_get_single.
Qed.

Lemma prompt_line_physical p : physical_line (prompt_line p).
Proof.
  exists (dumps (JObject [(str "prompt", JString p)])). split; [reflexivity|].
  cbn [dumps map join fst snd].
  change (123%N :: (dumps_string (str "prompt") ++ str ": " ++ dumps_string p)
                   ++ [125%N])
    with ([123%N] ++ (dumps_string (str "prompt") ++ str ": " ++ dumps_string p)
                   ++ [125%N]).
  now rewrite !newline_free_app, !dumps_string_newline_free.
Qed.

Lemma prompt_line_nonblank p : nonblank (prompt_line p) = true.
Proof. rewrite nonblank_has_nonspace, prompt_line_shape. reflexivity. Qed.

(** Reading a text that starts with whole lines gives those lines first. *)
Lemma readlines_from_body body : newline_free body = true ->
  forall cur rest,
    readlines_from cur (body ++ NL :: rest)
    = (rev cur ++ body ++ [NL]) :: readlines_from [] rest.
Proof.
  induction body as [|c body IH]; intros Hn cur rest.
  - cbn [app readlines_from rev]. now rewrite N.eqb_refl.
  - cbn [newline_free forallb] in Hn. apply andb_true_iff in Hn as [Hc Hn].
    apply negb_true_iff in Hc. cbn [app readlines_from]. rewrite Hc.
    rewrite (IH Hn). cbn [rev]. now rewrite <- app_assoc.
Qed.

Lemma readlines_lines lines tail :
  Forall physical_line lines ->
  readlines (concat lines ++ tail) = lines ++ readlines tail.
Proof.
  unfold readlines. induction 1 as [|line lines (body & -> & Hn) _ IH];
    [reflexivity|].
  cbn [concat]. rewrite <- !app_assoc. cbn [app].
  rewrite (readlines_from_body body Hn). cbn [rev app].
  now rewrite IH.
Qed.

Lemma cache_text_lines dataset :
  cache_text dataset = concat (map prompt_line dataset).
Proof. reflexivity. Qed.

Lemma readlines_cache_text dataset :
  readlines (cache_text dataset) = map prompt_line dataset.
Proof.
  rewrite cache_text_lines, <- (app_nil_r (concat _)), readlines_lines.
  - apply app_nil_r.
  - apply Forall_forall. intros line Hin.
    apply in_map_iff in Hin as (p & <- & _). apply prompt_line_physical.
Qed.

Lemma read_cache_prompt_lines py dataset :
  forallb scalar_text dataset = true ->
  read_cache py (map prompt_line dataset) = inr (map JString dataset).
Proof.
  induction dataset as [|p dataset IH]; intro H; [reflexivity|].
  cbn [forallb] in H. apply andb_true_iff in H as [Hp H].
  cbn [map read_cache].
  now rewrite prompt_line_nonblank, cache_record_prompt_line, IH.
Qed.

(** Every call that returns leaves a cache file in place. *)
Lemma load_prompts_cases py dataset cache cache' prompts :
  load_prompts py dataset cache = (cache', inr prompts) ->
  (exists text, cache = Some text /\ cache' = Some text
                /\ read_cache py (readlines text) = inr prompts)
  \/ (cache' = Some (cache_text dataset) /\ prompts = map JString dataset).
Proof.
  unfold load_prompts, fetch_prompts. destruct cache as [text|].
  - destruct (read_cache py (readlines text)) as [[| | | |]|ps] eqn:E; intro H;
      inversion H; subst; eauto.
  - intro H. inversion H. auto.
Qed.

End CacheLines.

(** X1: a second call of [load_prompts] finds the cache the first call wrote
    and returns the same prompts.  For a dataset of prompts without
    surrogate code points, the call on a missing cache writes one line for
    each prompt and returns the prompts, and a call on that cache, whatever
    the upstream dataset is by then, returns the same prompts and leaves
    the cache as it is. *)
Theorem cache_round_trip py dataset dataset' :
  forallb scalar_text dataset = true ->
  load_prompts py dataset None
  = (Some (cache_text dataset), inr (map JString dataset))
  /\ readlines (cache_text dataset) = map prompt_line dataset
  /\ load_prompts py dataset' (Some (cache_text dataset))
     = (Some (cache_text dataset), inr (map JString dataset)).
Proof.
  intro H. split; [reflexivity|]. split; [apply readlines_cache_text|].
  unfold load_prompts.
  now rewrite readlines_cache_text, read_cache_prompt_lines.
Qed.

Lemma cache_round_trip_witness :
  forallb scalar_text escaped_prompts = true
  /\ load_prompts cpython_defaults [str "other"] (Some (cache_text escaped_prompts))
     = (Some (cache_text escaped_prompts), inr (map JString escaped_prompts)).
Proof.
  split; [reflexivity|].
  apply (cache_round_trip cpython_defaults escaped_prompts [str "other"] eq_refl).
Defined.

(** X2: for a dataset of prompts without surrogate code points, once
    [load_prompts] has returned a list, every later call on the cache it
    left returns that list again and leaves the cache as it is, whatever
    the upstream dataset holds by then: the dataset is read at most once. *)
Theorem load_prompts_stable py dataset dataset' cache cache' prompts :
  forallb scalar_text dataset = true ->
  load_prompts py dataset cache = (cache', inr prompts) ->
  load_prompts py dataset' cache' = (cache', inr prompts).
Proof.
  intros Hs H.
  destruct (load_prompts_cases py dataset cache cache' prompts H)
    as [(text & -> & -> & Hr)|[-> ->]].
  - unfold load_prompts. now rewrite Hr.
  - unfold load_prompts.
    now rewrite readlines_cache_text, read_cache_prompt_lines.
Qed.

Lemma load_prompts_stable_witness :
  forallb scalar_text escaped_prompts = true
  /\ load_prompts cpython_defaults escaped_prompts (Some malformed)
     = (Some (cache_text escaped_prompts), inr (map JString escaped_prompts))
  /\ load_prompts cpython_defaults [] (Some (cache_text escaped_prompts))
     = (Some (cache_text escaped_prompts), inr (map JString escaped_prompts)).
Proof.
  split; [reflexivity|]. split; [reflexivity|].
  apply (load_prompts_stable cpython_defaults escaped_prompts [] (Some malformed) _ _
           eq_refl eq_refl).
Defined.

Section CorruptCache.



(** The two exceptions of the interpreter's limits leave [load_prompts]
    like [TypeError] does: an integer literal of more digits than [int]
    converts raises [ValueError] before the keyless line after it is read,
    a nesting deeper than the recursion limit raises [RecursionError], and
    the cache stays as it is. *)
Lemma interpreter_limits_not_recovered dataset :
  load_prompts cpython_defaults dataset (Some long_integer_first)
  = (Some long_integer_first, inl ValueError)
  /\ load_prompts cpython_defaults dataset (Some deep_line)
     = (Some deep_line, inl RecursionError).
Proof. split; vm_compute; reflexivity. Qed.

End CorruptCache.


(** ** The log of a run *)

Section LoopLog.

Variable create : service.
Variable processed_count : Z.

Lemma count_events_app kind a b :
  count_events kind (a ++ b)
  = (count_events kind a + count_events kind b)%nat.
Proof. unfold count_events. now rewrite filter_app, length_app. Qed.

(** What one pass through the loop body logs. *)
Lemma process_item_log item :
  let e := process_item create processed_count item in
  filter is_processing (events e)
  = [LogProcessing (fst (call_of processed_count item)) (preview (snd item))]
  /\ count_events is_recorded (events e) = length (written e)
  /\ (count_events is_skipped (events e) + length (written e)
      + Nat.b2n (interrupted e) = 1)%nat
  /\ count_events is_client_closed (events e) = 0%nat.
Proof.
  destruct item as [index prompt]. unfold process_item, call_of, preview.
  cbn [fst snd].
  destruct (create index prompt) as [resp| | |]; try (now cbn).
  destruct (choices resp); now cbn.
Qed.

Lemma run_loop_log items :
  let e := run_loop create processed_count items in
  filter is_processing (events e)
  = map (fun call => LogProcessing (fst call) (preview (snd call))) (calls e)
  /\ count_events is_recorded (events e) = length (written e)
  /\ (count_events is_skipped (events e) + length (written e)
      + Nat.b2n (interrupted e) = length (calls e))%nat
  /\ count_events is_client_closed (events e) = 0%nat.
Proof.
  induction items as [|item rest (IH1 & IH2 & IH3 & IH4)]; [now cbn|].
  cbn [run_loop].
  destruct (process_item_log item) as (H1 & H2 & H3 & H4).
  pose proof (process_item_calls create processed_count item) as Hc.
  destruct (interrupted (process_item create processed_count item)) eqn:Hi.
  - rewrite Hc. cbn [map length]. repeat split; try assumption. now rewrite Hi.
  - cbn [then_effects events written calls interrupted].
    rewrite filter_app, !count_events_app, !length_app, map_app.
    rewrite H1, H2, H4, IH1, IH2, IH4, Hc. cbn [map fst snd call_of length].
    repeat split; try reflexivity. cbn [Nat.b2n] in H3. lia.
Qed.

(** A loop whose requests all return a choice runs to its end and writes
    one line for each item. *)
Lemma run_loop_complete items :
  (forall index prompt, completes (create index prompt) = true) ->
  interrupted (run_loop create processed_count items) = false
  /\ length (written (run_loop create processed_count items)) = length items.
Proof.
  intro H. induction items as [|[index prompt] rest [IH1 IH2]]; [now cbn|].
  cbn [run_loop]. rewrite process_item_interrupted.
  pose proof (process_item_written create processed_count index prompt) as Hw.
  specialize (H index prompt). unfold completes in H.
  destruct (create index prompt) as [resp| | |]; try discriminate.
  destruct (choices resp); [discriminate|].
  cbn [then_effects interrupted written]. rewrite Hw, length_app, IH2.
  now cbn.
Qed.

End LoopLog.

Section RunLog.

Variable cfg : config.
Variable create : service.
Variable prompts : list pystr.
Variable f : file.

(** The ledger, the requests and the log of a run, by the effects of its
    loop. *)
Lemma process_prompts_log :
  let r := process_prompts cfg create prompts f in
  exists e,
    ledger r = Some (text_of f ++ concat (written e))
    /\ submitted r = calls e
    /\ Forall ledger_line (written e)
    /\ filter is_processing (output r)
       = map (fun call => LogProcessing (fst call) (preview (snd call))) (calls e)
    /\ count_events is_recorded (output r) = length (written e)
    /\ (count_events is_skipped (output r) + length (written e)
        + Nat.b2n (existsb is_interrupt (output r)) = length (calls e))%nat.
Proof.
  intro r. subst r.
  destruct (initial_noop cfg (record_count f) (Z.of_nat (length prompts))) eqn:E.
  - destruct (process_prompts_noop cfg create prompts f E)
      as (H1 & H2 & [H3|H3]);
      exists no_effects; rewrite H1, H2, H3; cbn; rewrite app_nil_r;
      repeat split; constructor.
  - rewrite (output_interrupt cfg create prompts f E).
    destruct (process_prompts_run cfg create prompts f E) as (_ & ->).
    cbn [ledger submitted output].
    set (e := run_loop create (record_count f) _).
    destruct (run_loop_log create (record_count f)
                (enumerate
                   (firstn (Z.to_nat (remaining cfg (record_count f)
                                        (Z.of_nat (length prompts))))
                      (skipn (Z.to_nat (record_count f)) prompts))))
      as (H1 & H2 & H3 & _).
    fold e in H1, H2, H3.
    exists e. split; [reflexivity|]. split; [reflexivity|].
    split; [apply run_loop_ledger_lines|].
    assert (Hclosing : forall kind,
               kind PrintInterrupted = false ->
               (forall l, kind (PrintLimitReached l) = false) ->
               filter kind
                 (if interrupted e then [PrintInterrupted]
                  else if (STOP_AFTER_LIMIT cfg
                           && (OUTPUT_LIMIT cfg <=?
                               record_count f
                               + Z.of_nat
                                   (Z.to_nat
                                      (remaining cfg (record_count f)
                                         (Z.of_nat (length prompts))))))%bool
                       then [PrintLimitReached (OUTPUT_LIMIT cfg)]
                       else []) = []).
    { intros kind Hk1 Hk2. destruct (interrupted e); cbn [filter].
      - now rewrite Hk1.
      - destruct (STOP_AFTER_LIMIT cfg && _)%bool; cbn [filter];
          [now rewrite Hk2|reflexivity]. }
    unfold count_events.
    cbn [filter is_processing is_recorded is_skipped].
    rewrite !filter_app, !Hclosing by reflexivity.
    cbn [filter is_processing is_recorded is_skipped app].
    rewrite !app_nil_r. fold (count_events is_recorded (events e)).
    fold (count_events is_skipped (events e)).
    repeat split; assumption.
Qed.

End RunLog.

(** ** The ledger across runs *)

Section LedgerGrowth.

Variable cfg : config.

Lemma concat_ledger_lines_terminated ws :
  Forall ledger_line ws -> ws <> [] -> exists t, concat ws = t ++ [NL].
Proof.
  induction 1 as [|w ws (body & -> & _) Hws IH]; intro Hne; [contradiction|].
  destruct ws as [|w' ws'].
  - exists (123%N :: body). cbn [concat]. now rewrite app_nil_r.
  - destruct IH as (t & Ht); [discriminate|].
    exists ((123%N :: body ++ [NL]) ++ t).
    change (concat ((123%N :: body ++ [NL]) :: w' :: ws'))
      with ((123%N :: body ++ [NL]) ++ concat (w' :: ws')).
    now rewrite Ht, app_assoc.
Qed.

Lemma append_keeps_newline_terminated text ws :
  Forall ledger_line ws -> newline_terminated text ->
  newline_terminated (text ++ concat ws).
Proof.
  intros Hws Ht. destruct ws as [|w ws].
  - cbn [concat]. now rewrite app_nil_r.
  - destruct (concat_ledger_lines_terminated (w :: ws) Hws) as (t & ->);
      [discriminate|].
    right. exists (text ++ t). now rewrite app_assoc.
Qed.

(** X4: a run only appends.  The ledger after a run is the text it had
    before, unchanged, followed by the lines written, each an opening brace,
    a body without newline and a newline; there are at most as many lines
    as requests. *)
Theorem ledger_append_only create prompts f :
  let r := process_prompts cfg create prompts f in
  exists ws,
    ledger r = Some (text_of f ++ concat ws)
    /\ Forall ledger_line ws
    /\ (length ws <= length (submitted r))%nat.
Proof.
  intro r. destruct (process_prompts_log cfg create prompts f)
    as (e & Hl & Hs & Hw & _ & _ & Hacc).
  exists (written e). fold r in Hl, Hs. rewrite Hl, Hs.
  repeat split; [assumption|lia].
Qed.

(** X5: the count of the ledger never goes down.  After a run it is at
    least what it was and at most that plus the number of records the log
    reports; after any sequence of runs it is at least what it was. *)
Theorem record_count_monotone create prompts f :
  let r := process_prompts cfg create prompts f in
  (record_count f <= record_count (ledger r)
   <= record_count f + Z.of_nat (count_events is_recorded (output r)))
  /\ (forall runs, record_count f <= record_count (run_sequence cfg runs f)).
Proof.
  assert (Hone : forall create prompts f,
             let r := process_prompts cfg create prompts f in
             record_count f <= record_count (ledger r)
             <= record_count f + Z.of_nat (count_events is_recorded (output r))).
  { intros create0 prompts0 f0 r.
    destruct (process_prompts_log cfg create0 prompts0 f0)
      as (e & Hl & _ & Hw & _ & Hrec & _).
    fold r in Hl, Hrec. rewrite Hl, Hrec.
    pose proof (record_count_append_le (text_of f0) (written e) Hw) as H.
    now rewrite record_count_text_of in H. }
  intro r. split; [apply Hone|].
  intro runs. clear r. revert f.
  induction runs as [|[create0 prompts0] runs IH]; intro f0; cbn [run_sequence].
  - lia.
  - specialize (IH (ledger (process_prompts cfg create0 prompts0 f0))).
    pose proof (Hone create0 prompts0 f0). cbv zeta in *. lia.
Qed.

(** X6: a ledger that is empty or ends with a newline stays so, through a
    run and through any sequence of runs; so does a ledger that starts
    absent. *)
Theorem runs_keep_newline_terminated f :
  newline_terminated (text_of f) ->
  (forall create prompts,
      newline_terminated (text_of (ledger (process_prompts cfg create prompts f))))
  /\ (forall runs, newline_terminated (text_of (run_sequence cfg runs f))).
Proof.
  assert (Hone : forall create prompts f,
             newline_terminated (text_of f) ->
             newline_terminated
               (text_of (ledger (process_prompts cfg create prompts f)))).
  { intros create prompts f0 H0.
    destruct (process_prompts_log cfg create prompts f0)
      as (e & Hl & _ & Hw & _).
    rewrite Hl. cbn [text_of]. now apply append_keeps_newline_terminated. }
  intro H. split; [intros; now apply Hone|].
  intro runs. revert f H.
  induction runs as [|[create prompts] runs IH]; intros f0 H0; cbn [run_sequence].
  - exact H0.
  - apply IH. now apply Hone.
Qed.

(** X7: on a ledger that is empty or ends with a newline, the count after a
    run is the count before plus the number of records the log reports:
    only a recorded item moves the resume cursor, and each moves it by
    one. *)
Theorem count_grows_by_recorded create prompts f :
  newline_terminated (text_of f) ->
  let r := process_prompts cfg create prompts f in
  record_count (ledger r)
  = record_count f + Z.of_nat (count_events is_recorded (output r)).
Proof.
  intros H r.
  destruct (process_prompts_log cfg create prompts f)
    as (e & Hl & _ & Hw & _ & Hrec & _).
  fold r in Hl, Hrec. rewrite Hl, Hrec.
  rewrite record_count_append_terminated
    by auto using newline_terminated_pending.
  now rewrite record_count_text_of.
Qed.

(** X8: on a ledger whose last line is not finished by a newline and holds
    a character other than white space, the first record written joins that
    line: the count grows by one less than the number of records the log
    reports. *)
Theorem unfinished_line_absorbs_record create prompts f before last :
  text_of f = before ++ last ->
  newline_terminated before ->
  newline_free last = true -> has_nonspace last = true ->
  let r := process_prompts cfg create prompts f in
  (0 < count_events is_recorded (output r))%nat ->
  record_count (ledger r)
  = record_count f + Z.of_nat (count_events is_recorded (output r)) - 1.
Proof.
  intros Hf Hb Hn Hs r Hpos.
  destruct (process_prompts_log cfg create prompts f)
    as (e & Hl & _ & Hw & _ & Hrec & _).
  fold r in Hl, Hrec. rewrite Hrec in *. rewrite Hl.
  rewrite (record_count_append (text_of f) (written e) Hw).
  rewrite <- (record_count_text_of f), record_count_scan.
  assert (Hp : pending_after false (text_of f) = true).
  { rewrite Hf, pending_after_app, (newline_terminated_pending before Hb).
    destruct (scan_body last Hn false) as [_ ->]. exact Hs. }
  rewrite Hp. destruct (written e); cbn [length Nat.b2n] in *; lia.
Qed.

End LedgerGrowth.

Lemma runs_keep_newline_terminated_witness :
  newline_terminated (text_of None)
  /\ newline_terminated
       (text_of (run_sequence (limited 3)
                   [(times_out_on (str "b"), four_prompts); (echo, four_prompts)]
                   None)).
Proof.
  assert (H : newline_terminated (text_of None)) by (left; reflexivity).
  split; [exact H|].
  apply (proj2 (runs_keep_newline_terminated (limited 3) None H)).
Defined.

Lemma count_grows_by_recorded_witness :
  newline_terminated (text_of (Some two_records))
  /\ record_count
       (ledger (process_prompts unlimited (times_out_on (str "c")) four_prompts
                  (Some two_records)))
     = record_count (Some two_records)
       + Z.of_nat
           (count_events is_recorded
              (output (process_prompts unlimited (times_out_on (str "c"))
                         four_prompts (Some two_records)))).
Proof.
  assert (H : newline_terminated (text_of (Some two_records))).
  { right. exists (removelast two_records). reflexivity. }
  split; [exact H|].
  apply (count_grows_by_recorded unlimited (times_out_on (str "c")) four_prompts
           (Some two_records) H).
Defined.

Lemma unfinished_line_absorbs_record_witness :
  let f := Some (removelast two_records) in
  let r := process_prompts unlimited echo four_prompts f in
  (newline_terminated (string_record (str "a") (str "gpt-4o") (str "x"))
   /\ newline_free (removelast (string_record (str "b") (str "gpt-4o") (str "y")))
      = true
   /\ (0 < count_events is_recorded (output r))%nat)
  /\ record_count (ledger r)
     = record_count f + Z.of_nat (count_events is_recorded (output r)) - 1.
Proof.
  cbv zeta.
  assert (H : newline_terminated
                (string_record (str "a") (str "gpt-4o") (str "x"))).
  { right. exists (removelast (string_record (str "a") (str "gpt-4o") (str "x"))).
    reflexivity. }
  split; [split; [exact H|split; [reflexivity|vm_compute; lia]]|].
  apply (unfinished_line_absorbs_record unlimited echo four_prompts
           (Some (removelast two_records))
           (string_record (str "a") (str "gpt-4o") (str "x"))
           (removelast (string_record (str "b") (str "gpt-4o") (str "y")))
           eq_refl H eq_refl eq_refl).
  vm_compute. lia.
Defined.

(** ** Requests and their log lines *)

Section Accounting.

Variable cfg : config.
Variable create : service.
Variable prompts : list pystr.
Variable f : file.

Let r := process_prompts cfg create prompts f.

(** X9: every request of a run is accounted for in its log.  There is one
    [Processing] line for each request; each request was then recorded, or
    skipped (timeout, error, empty response), or it is the one request an
    interrupt cut short. *)
Theorem request_accounting :
  count_events is_processing (output r) = length (submitted r)
  /\ (count_events is_recorded (output r) + count_events is_skipped (output r)
      + Nat.b2n (existsb is_interrupt (output r))
      = length (submitted r))%nat.
Proof.
  destruct (process_prompts_log cfg create prompts f)
    as (e & _ & Hs & _ & Hp & Hrec & Hacc).
  fold r in Hs, Hp, Hrec, Hacc.
  unfold count_events at 1. rewrite Hp, length_map, Hs, Hrec.
  split; [reflexivity|lia].
Qed.

Lemma preview_bounds prompt :
  (length (preview prompt) <= 80)%nat /\ newline_free (preview prompt) = true.
Proof.
  unfold preview. split; [apply firstn_le_length|].
  generalize 80%nat. induction prompt as [|c prompt IH]; intros [|n];
    try reflexivity.
  cbn [replace_newlines map firstn newline_free forallb].
  fold (replace_newlines prompt). fold (newline_free (firstn n (replace_newlines prompt))).
  rewrite IH, andb_true_r.
  destruct (c =? NL)%N eqn:E; [reflexivity|now rewrite E].
Qed.

(** X10: the [Processing] lines of a run are, in order, one for each
    request, with the one-based index of the request and the preview of its
    prompt; a preview has at most 80 characters and no newline, so each
    such log line stays on one line. *)
Theorem log_lines_follow_requests :
  filter is_processing (output r)
  = map (fun call => LogProcessing (fst call) (preview (snd call))) (submitted r)
  /\ Forall (fun e => match e with
                      | LogProcessing _ p | LogError _ _ p =>
                          (length p <= 80)%nat /\ newline_free p = true
                      | _ => True
                      end) (output r).
Proof.
  split.
  - destruct (process_prompts_log cfg create prompts f)
      as (e & _ & Hs & _ & Hp & _).
    fold r in Hs, Hp. now rewrite Hp, Hs.
  - assert (Hitem : forall pc item,
               Forall (fun e => match e with
                                | LogProcessing _ p | LogError _ _ p =>
                                    (length p <= 80)%nat /\ newline_free p = true
                                | _ => True
                                end) (events (process_item create pc item))).
    { intros pc [index prompt]. unfold process_item.
      fold (preview prompt).
      destruct (create index prompt) as [resp| | |];
        [destruct (choices resp)| | |];
        repeat (apply Forall_cons || apply Forall_nil);
        try exact I; apply preview_bounds. }
    assert (Hloop : forall pc items,
               Forall (fun e => match e with
                                | LogProcessing _ p | LogError _ _ p =>
                                    (length p <= 80)%nat /\ newline_free p = true
                                | _ => True
                                end) (events (run_loop create pc items))).
    { intros pc items. induction items as [|item rest IH]; [constructor|].
      cbn [run_loop]. destruct (interrupted (process_item create pc item)).
      - apply Hitem.
      - cbn [then_effects events]. apply Forall_app. split; [apply Hitem|exact IH]. }
    destruct (initial_noop cfg (record_count f) (Z.of_nat (length prompts))) eqn:E.
    + destruct (process_prompts_noop cfg create prompts f E) as (_ & _ & [H|H]);
        fold r in H; rewrite H;
        repeat (apply Forall_cons || apply Forall_nil); exact I.
    + destruct (process_prompts_run cfg create prompts f E) as (_ & Hrun).
      fold r in Hrun. rewrite Hrun. cbn [output].
      apply Forall_cons; [exact I|].
      apply Forall_app. split; [apply Hloop|].
      apply Forall_app.
      split; [|repeat (apply Forall_cons || apply Forall_nil); exact I].
      match goal with |- context [interrupted ?e] => destruct (interrupted e) end;
        [repeat (apply Forall_cons || apply Forall_nil); exact I|].
      destruct (STOP_AFTER_LIMIT cfg && _)%bool;
        repeat (apply Forall_cons || apply Forall_nil); exact I.
Qed.


End Accounting.

Section CompleteRun.

Variable cfg : config.
Variable create : service.
Variable prompts : list pystr.
Variable f : file.

Lemma target_from_remaining pc total :
  initial_noop cfg pc total = false ->
  pc + remaining cfg pc total = target_count cfg total.
Proof.
  unfold initial_noop, remaining, target_count.
  destruct (STOP_AFTER_LIMIT cfg); intro H;
    repeat match goal with
           | H : context [Z.leb ?a ?b] |- _ => destruct (Z.leb_spec a b)
           end; cbn [orb] in *; try discriminate; lia.
Qed.

Lemma target_below_count pc total :
  initial_noop cfg pc total = true -> target_count cfg total <= pc.
Proof.
  unfold initial_noop, target_count.
  destruct (STOP_AFTER_LIMIT cfg); intro H;
    repeat match goal with
           | H : context [Z.leb ?a ?b] |- _ => destruct (Z.leb_spec a b)
           end; cbn [orb] in *; try discriminate; lia.
Qed.

(** The count after a run whose requests all return a choice. *)
Lemma complete_run_count :
  (forall index prompt, completes (create index prompt) = true) ->
  newline_terminated (text_of f) ->
  record_count (ledger (process_prompts cfg create prompts f))
  = Z.max (record_count f) (target_count cfg (Z.of_nat (length prompts))).
Proof.
  intros Hall Hnl.
  pose proof (record_count_nonneg f) as Hnn.
  destruct (initial_noop cfg (record_count f) (Z.of_nat (length prompts))) eqn:E.
  - destruct (process_prompts_noop cfg create prompts f E) as (-> & _).
    rewrite record_count_text_of.
    apply target_below_count in E. lia.
  - destruct (process_prompts_run cfg create prompts f E) as ((Hr & Hle) & ->).
    cbn [ledger].
    destruct (run_loop_complete create (record_count f)
                (enumerate
                   (firstn (Z.to_nat (remaining cfg (record_count f)
                                        (Z.of_nat (length prompts))))
                      (skipn (Z.to_nat (record_count f)) prompts))) Hall)
      as [_ Hlen].
    rewrite record_count_append_terminated
      by (try apply run_loop_ledger_lines; now apply newline_terminated_pending).
    rewrite Hlen. unfold enumerate.
    rewrite enumerate_length, length_firstn, length_skipn, record_count_text_of.
    apply target_from_remaining in E. lia.
Qed.

(** X12: when every request returns a choice, one run on a ledger that is
    empty or ends with a newline brings the count to the target: the
    smaller of the limit and the number of prompts when the limit is
    enabled, the number of prompts otherwise (or leaves it where it was if
    it was beyond already); a run after that, whatever its service
    answers, submits nothing and leaves the ledger as it is. *)
Theorem complete_run_reaches_target (create' : service) :
  (forall index prompt, completes (create index prompt) = true) ->
  newline_terminated (text_of f) ->
  let r1 := process_prompts cfg create prompts f in
  let r2 := process_prompts cfg create' prompts (ledger r1) in
  record_count (ledger r1)
  = Z.max (record_count f) (target_count cfg (Z.of_nat (length prompts)))
  /\ submitted r2 = [] /\ text_of (ledger r2) = text_of (ledger r1).
Proof.
  intros Hall Hnl r1 r2.
  pose proof (complete_run_count Hall Hnl) as Hc. fold r1 in Hc.
  split; [exact Hc|].
  assert (E : initial_noop cfg (record_count (ledger r1))
                (Z.of_nat (length prompts)) = true).
  { rewrite Hc. unfold initial_noop, target_count.
    destruct (STOP_AFTER_LIMIT cfg);
      repeat match goal with
             | |- context [Z.leb ?a ?b] => destruct (Z.leb_spec a b)
             end; cbn [orb]; try reflexivity; lia. }
  destruct (process_prompts_noop cfg create' prompts (ledger r1) E)
    as (H1 & H2 & _).
  fold r2 in H1, H2. now rewrite H1, H2.
Qed.

End CompleteRun.

Lemma complete_run_reaches_target_witness :
  (forall index prompt, completes (echo index prompt) = true)
  /\ newline_terminated (text_of None)
  /\ record_count
       (ledger (process_prompts (limited 3) echo four_prompts None)) = 3
  /\ submitted
       (process_prompts (limited 3) (times_out_on (str "d")) four_prompts
          (ledger (process_prompts (limited 3) echo four_prompts None))) = [].
Proof.
  assert (H1 : forall index prompt, completes (echo index prompt) = true)
    by (intros; reflexivity).
  assert (H2 : newline_terminated (text_of None)) by (left; reflexivity).
  split; [exact H1|]. split; [exact H2|].
  pose proof (complete_run_reaches_target (limited 3) echo four_prompts None
                (times_out_on (str "d")) H1 H2) as (Ha & Hb & _).
  split; [exact Ha|exact Hb].
Defined.

(** ** The entry point *)

Section Main.

Variable py : interpreter.
Variable cfg : config.
Variable create : service.

Lemma slice_map {A B} (g : A -> B) (l : list A) lo hi :
  slice (map g l) lo hi = map g (slice l lo hi).
Proof. unfold slice. now rewrite length_map, skipn_map, firstn_map. Qed.

Lemma enumerate_from_map (ps : list (list N)) : forall k,
  enumerate_from k (map JString ps)
  = map (fun item => (fst item, JString (snd item))) (enumerate_from k ps).
Proof.
  induction ps as [|p ps IH]; intro k; [reflexivity|].
  cbn [map enumerate_from fst snd]. now rewrite IH.
Qed.

Lemma run_loop_values_strings pc items :
  run_loop_values create pc
    (map (fun item => (fst item, JString (snd item))) items)
  = (run_loop create pc items, None).
Proof.
  induction items as [|[index prompt] rest IH]; [reflexivity|].
  cbn [map run_loop_values run_loop fst snd]. rewrite IH.
  now destruct (interrupted (process_item create pc (index, prompt))).
Qed.

(** On a list of strings the run on values is [process_prompts], and no
    exception ends it. *)
Lemma process_values_strings ps f :
  process_values cfg create (map JString ps) f
  = (process_prompts cfg create ps f, None).
Proof.
  assert (H : forall text pc cap,
             process_remaining_values cfg create (map JString ps) text pc cap
             = (process_remaining cfg create ps text pc cap, None)).
  { intros text pc cap. unfold process_remaining_values, process_remaining.
    rewrite length_map.
    destruct (cap <=? 0); [reflexivity|].
    destruct (Z.of_nat (length ps) <=? pc); [reflexivity|].
    unfold enumerate.
    now rewrite slice_map, enumerate_from_map, run_loop_values_strings,
      length_map. }
  unfold process_values, process_prompts.
  destruct (count_existing_results f) as [results_file pc].
  rewrite length_map, !H.
  destruct (STOP_AFTER_LIMIT cfg); [|reflexivity].
  now destruct (OUTPUT_LIMIT cfg <=? pc).
Qed.


(** When the items before a value that is not a string have been worked
    on, the loop ends with [AttributeError], unless an interrupt ended it
    before. *)
Lemma run_loop_values_crash pc v ys :
  (forall s, v <> JString s) ->
  forall xs k,
    run_loop_values create pc (enumerate_from k (map JString xs ++ v :: ys))
    = (run_loop create pc (enumerate_from k xs),
       if interrupted (run_loop create pc (enumerate_from k xs))
       then None else Some AttributeError).
Proof.
  intros Hv xs. induction xs as [|x xs IH]; intro k.
  - cbn [map app enumerate_from run_loop_values run_loop no_effects interrupted].
    destruct v; try reflexivity. now destruct (Hv s).
  - cbn [map app enumerate_from run_loop_values run_loop]. rewrite IH.
    destruct (interrupted (process_item create pc (k, x))) eqn:E.
    + now rewrite E.
    + reflexivity.
Qed.

End Main.

Section MainRuns.

Variable py : interpreter.
Variable cfg : config.
Variable create : service.

Lemma slice_from {A} (l : list A) (lo hi : Z) :
  0 <= lo <= Z.of_nat (length l) -> lo <= hi ->
  slice l lo hi
  = firstn (Z.to_nat (Z.min hi (Z.of_nat (length l)) - lo))
      (skipn (Z.to_nat lo) l).
Proof.
  intros Hlo Hhi. unfold slice, slice_bound.
  destruct (Z.ltb_spec lo 0); [lia|].
  destruct (Z.ltb_spec hi 0); [lia|].
  now rewrite (Z.min_l lo) by lia.
Qed.

(** The working slice when a value that is not a string lies in it: the
    strings from the count on, that value, and some of what follows. *)
Lemma slice_reaches_value pre (v : json) post pc cap :
  0 <= pc <= Z.of_nat (length pre) -> Z.of_nat (length pre) < pc + cap ->
  exists ys,
    slice (map JString pre ++ v :: post) pc (pc + cap)
    = map JString (skipn (Z.to_nat pc) pre) ++ v :: ys.
Proof.
  intros Hpc Hcap.
  rewrite slice_from by (rewrite ?length_app, ?length_map; cbn [length]; lia).
  rewrite length_app, length_map. cbn [length].
  rewrite skipn_app, length_map, skipn_map.
  replace (Z.to_nat pc - length pre)%nat with 0%nat by lia. cbn [skipn].
  set (n := Z.to_nat _).
  rewrite firstn_app, length_map, length_skipn.
  rewrite firstn_all2 by (rewrite length_map, length_skipn; subst n; lia).
  destruct (n - (length pre - Z.to_nat pc))%nat as [|m] eqn:Hm;
    [subst n; lia|].
  cbn [firstn]. eauto.
Qed.

Lemma process_remaining_values_crash text pc cap pre v post :
  (forall s, v <> JString s) ->
  0 <= pc <= Z.of_nat (length pre) -> Z.of_nat (length pre) < pc + cap ->
  let e := run_loop create pc (enumerate (skipn (Z.to_nat pc) pre)) in
  exists batch,
    process_remaining_values cfg create (map JString pre ++ v :: post)
      text pc cap
    = ({| ledger := Some (text ++ concat (written e));
          submitted := calls e;
          output := LogStarting batch pc :: events e
                    ++ (if interrupted e then [PrintInterrupted] else [])
                    ++ [ClientClosed] |},
       if interrupted e then None else Some AttributeError).
Proof.
  intros Hv Hpc Hcap e. unfold process_remaining_values.
  rewrite length_app, length_map. cbn [length].
  destruct (Z.leb_spec cap 0); [lia|].
  destruct (Z.leb_spec (Z.of_nat (length pre + S (length post))) pc); [lia|].
  destruct (slice_reaches_value pre v post pc cap Hpc Hcap) as (ys & ->).
  unfold enumerate. rewrite (run_loop_values_crash create pc v ys Hv).
  fold (enumerate (skipn (Z.to_nat pc) pre)). fold e.
  eexists. destruct (interrupted e); reflexivity.
Qed.

(** A value that is not a string ends the run when the loop reaches it.
    For a list of values whose first non-string lies in the working slice,
    the run makes the requests and writes the records of the prompts before
    that value, as the loop does on them; then, unless an interrupt came
    first, it ends with [AttributeError], without a report on the limit,
    and the client is closed. *)
Lemma process_values_stops_at_value pre v post f :
  (forall s, v <> JString s) ->
  record_count f <= Z.of_nat (length pre) ->
  (STOP_AFTER_LIMIT cfg = true -> Z.of_nat (length pre) < OUTPUT_LIMIT cfg) ->
  let pc := record_count f in
  let e := run_loop create pc (enumerate (skipn (Z.to_nat pc) pre)) in
  let result := process_values cfg create (map JString pre ++ v :: post) f in
  snd result = (if interrupted e then None else Some AttributeError)
  /\ ledger (fst result) = Some (text_of f ++ concat (written e))
  /\ submitted (fst result) = calls e
  /\ existsb is_limit_report (output (fst result)) = false
  /\ last (output (fst result)) PrintAllProcessed = ClientClosed.
Proof.
  intros Hv Hpc Hlim pc e result.
  pose proof (record_count_nonneg f) as Hnn.
  assert (H : exists batch,
             result
             = ({| ledger := Some (text_of f ++ concat (written e));
                   submitted := calls e;
                   output := LogStarting batch pc :: events e
                             ++ (if interrupted e then [PrintInterrupted] else [])
                             ++ [ClientClosed] |},
                if interrupted e then None else Some AttributeError)).
  { subst result. unfold process_values.
    rewrite count_existing_results_eq. cbn [text_of]. fold pc.
    destruct (STOP_AFTER_LIMIT cfg).
    - specialize (Hlim eq_refl).
      destruct (Z.leb_spec (OUTPUT_LIMIT cfg) pc); [subst pc; lia|].
      apply process_remaining_values_crash; [exact Hv|subst pc; lia|lia].
    - apply process_remaining_values_crash; [exact Hv|subst pc; lia|].
      rewrite length_app, length_map. cbn [length]. lia. }
  destruct H as (batch & ->). cbn [fst snd ledger submitted output].
  repeat split.
  - cbn [existsb is_limit_report orb]. rewrite !existsb_app.
    unfold e. rewrite run_loop_events_report.
    now destruct (interrupted _).
  - rewrite app_assoc, app_comm_cons. apply last_last.
Qed.

(** X14: a cached prompt that is not a string ends the run when the loop
    reaches it.  When [load_prompts] returns from the cache a list of
    values whose first non-string lies in the working slice, [main] leaves
    the cache as it is and runs on those values: it makes the requests and
    writes the records of the prompts before that value, as the loop does
    on them; then, unless an interrupt came first, it ends with
    [AttributeError], without a report on the limit, and the client is
    closed. *)
Theorem non_string_prompt_ends_run dataset cache pre v post f :
  load_prompts py dataset (Some cache)
  = (Some cache, inr (map JString pre ++ v :: post)) ->
  (forall s, v <> JString s) ->
  record_count f <= Z.of_nat (length pre) ->
  (STOP_AFTER_LIMIT cfg = true -> Z.of_nat (length pre) < OUTPUT_LIMIT cfg) ->
  let pc := record_count f in
  let e := run_loop create pc (enumerate (skipn (Z.to_nat pc) pre)) in
  exists r,
    main py cfg create dataset (Some cache) f
    = (Some cache, inr (r, if interrupted e then None else Some AttributeError))
    /\ ledger r = Some (text_of f ++ concat (written e))
    /\ submitted r = calls e
    /\ existsb is_limit_report (output r) = false
    /\ last (output r) PrintAllProcessed = ClientClosed.
Proof.
  intros Hload Hv Hpc Hlim pc e.
  destruct (process_values_stops_at_value pre v post f Hv Hpc Hlim)
    as (H1 & H2 & H3 & H4 & H5).
  unfold main. rewrite Hload.
  destruct (process_values cfg create (map JString pre ++ v :: post) f)
    as [r c] eqn:Hr.
  cbn [fst snd] in H1, H2, H3, H4, H5. subst c.
  exists r. fold pc. fold e. repeat split; assumption.
Qed.

Lemma at_target_noop g total :
  record_count g = Z.max (record_count g) (target_count cfg total) ->
  initial_noop cfg (record_count g) total = true.
Proof.
  unfold initial_noop, target_count. intro H.
  destruct (STOP_AFTER_LIMIT cfg);
    repeat match goal with
           | |- context [Z.leb ?a ?b] => destruct (Z.leb_spec a b)
           end; cbn [orb]; try reflexivity; lia.
Qed.

(** X15: running the program twice.  With no cache at the start, a dataset
    of prompts without surrogate code points, a ledger that is absent,
    empty or ends with a newline, and a service that returns a choice for
    every request, the first [main] writes the cache and brings the ledger
    to the target count; the second [main], whatever the dataset and the
    service are by then, reads the cache, submits nothing and leaves the
    cache and the text of the ledger as they are. *)
Theorem main_twice (create' : service) dataset dataset' f :
  forallb scalar_text dataset = true ->
  (forall index prompt, completes (create index prompt) = true) ->
  newline_terminated (text_of f) ->
  exists r1 r2,
    main py cfg create dataset None f = (Some (cache_text dataset), inr (r1, None))
    /\ main py cfg create' dataset' (Some (cache_text dataset)) (ledger r1)
       = (Some (cache_text dataset), inr (r2, None))
    /\ record_count (ledger r1)
       = Z.max (record_count f) (target_count cfg (Z.of_nat (length dataset)))
    /\ submitted r2 = []
    /\ text_of (ledger r2) = text_of (ledger r1).
Proof.
  intros Hs Hall Hnl.
  set (r1 := process_prompts cfg create dataset f).
  exists r1, (process_prompts cfg create' dataset (ledger r1)).
  pose proof (complete_run_count cfg create dataset f Hall Hnl) as Hc.
  fold r1 in Hc.
  split; [|split; [|split; [exact Hc|]]].
  - unfold main. cbn [load_prompts fetch_prompts].
    now rewrite process_values_strings.
  - unfold main, load_prompts.
    rewrite readlines_cache_text, read_cache_prompt_lines by exact Hs.
    now rewrite process_values_strings.
  - assert (E : initial_noop cfg (record_count (ledger r1))
                  (Z.of_nat (length dataset)) = true).
    { apply at_target_noop. rewrite Hc. lia. }
    destruct (process_prompts_noop cfg create' dataset (ledger r1) E)
      as (H1 & H2 & _).
    now rewrite H1, H2.
Qed.

End MainRuns.


Lemma non_string_prompt_ends_run_witness :
  (load_prompts cpython_defaults [str "other"] (Some number_second_cache)
   = (Some number_second_cache,
      inr (map JString [str "a"] ++ JNumber (str "5") :: [JString (str "c")]))
   /\ (forall s, JNumber (str "5") <> JString s)
   /\ record_count None <= 1
   /\ (STOP_AFTER_LIMIT unlimited = true -> 1 < OUTPUT_LIMIT unlimited))
  /\ exists r,
       main cpython_defaults unlimited echo [str "other"]
         (Some number_second_cache) None
       = (Some number_second_cache, inr (r, Some AttributeError))
       /\ ledger r
          = Some (string_record (str "a") (str "gpt-4o") (str "a"))
       /\ submitted r = [(1, str "a")].
Proof.
  assert (Hload : load_prompts cpython_defaults [str "other"]
                    (Some number_second_cache)
                  = (Some number_second_cache,
                     inr (map JString [str "a"] ++ JNumber (str "5")
                            :: [JString (str "c")])))
    by reflexivity.
  assert (Hv : forall s, JNumber (str "5") <> JString s) by discriminate.
  assert (Hc : record_count None <= Z.of_nat (length [str "a"]))
    by (vm_compute; discriminate).
  assert (Hl : STOP_AFTER_LIMIT unlimited = true ->
               Z.of_nat (length [str "a"]) < OUTPUT_LIMIT unlimited)
    by discriminate.
  split; [split; [exact Hload|split; [exact Hv|split; [exact Hc|exact Hl]]]|].
  destruct (non_string_prompt_ends_run cpython_defaults unlimited echo
              [str "other"] number_second_cache [str "a"] (JNumber (str "5"))
              [JString (str "c")] None Hload Hv Hc Hl)
    as (r & H1 & H2 & H3 & _).
  exists r. split; [exact H1|]. split; [exact H2|exact H3].
Defined.

Lemma main_twice_witness :
  (forallb scalar_text escaped_prompts = true
   /\ (forall index prompt, completes (echo index prompt) = true)
   /\ newline_terminated (text_of None))
  /\ exists r1 r2,
       main cpython_defaults (limited 3) echo escaped_prompts None None
       = (Some (cache_text escaped_prompts), inr (r1, None))
       /\ main cpython_defaults (limited 3) interrupted_service [] (Some (cache_text escaped_prompts))
            (ledger r1)
          = (Some (cache_text escaped_prompts), inr (r2, None))
       /\ record_count (ledger r1) = 2
       /\ submitted r2 = []
       /\ text_of (ledger r2) = text_of (ledger r1).
Proof.
  assert (H1 : forall index prompt, completes (echo index prompt) = true)
    by (intros; reflexivity).
  assert (H2 : newline_terminated (text_of None)) by (left; reflexivity).
  split; [split; [reflexivity|split; [exact H1|exact H2]]|].
  apply (main_twice cpython_defaults (limited 3) echo interrupted_service escaped_prompts []
           None eq_refl H1 H2).
Defined.

(** ** The closing report and the written value, once more *)

Section Closing.

Variable cfg : config.
Variable create : service.
Variable prompts : list pystr.
Variable f : file.

Let r := process_prompts cfg create prompts f.

(** X16: the report that the limit was reached depends on the number of
    prompts alone.  It is printed exactly when the run got past the initial
    checks, was not interrupted, the limit is enabled and the prompt list is
    at least as long as the limit; how many records were written plays no
    part. *)
Theorem limit_report_by_prompt_count :
  existsb is_limit_report (output r)
  = negb (initial_noop cfg (record_count f) (Z.of_nat (length prompts)))
    && negb (existsb is_interrupt (output r))
    && STOP_AFTER_LIMIT cfg
    && (OUTPUT_LIMIT cfg <=? Z.of_nat (length prompts)).
Proof.
  unfold r. rewrite (limit_report_condition cfg create prompts f).
  destruct (initial_noop cfg (record_count f) (Z.of_nat (length prompts))) eqn:E;
    [reflexivity|].
  cbn [negb andb].
  destruct (existsb is_interrupt _); [reflexivity|]. cbn [negb andb].
  unfold initial_noop, remaining in *.
  destruct (STOP_AFTER_LIMIT cfg); [|reflexivity]. cbn [andb].
  repeat match goal with
         | H : context [Z.leb ?a ?b] |- _ => destruct (Z.leb_spec a b)
         end; cbn [orb] in *; try discriminate.
  destruct (Z.leb_spec (OUTPUT_LIMIT cfg)
              (record_count f
               + Z.min (OUTPUT_LIMIT cfg - record_count f)
                   (Z.of_nat (length prompts) - record_count f)));
    destruct (Z.leb_spec (OUTPUT_LIMIT cfg) (Z.of_nat (length prompts)));
    try reflexivity; lia.
Qed.

(** X17: a completion whose message has no content is recorded all the
    same, with [null] as its output: the line written is the object with
    the prompt, the model name and [null], and it is in the ledger after
    the run. *)
Theorem absent_content_recorded_as_null index prompt resp first rest :
  In (call_of (record_count f) (index, prompt)) (submitted r) ->
  create index prompt = Returns resp ->
  choices resp = first :: rest ->
  message first = Some {| content := None |} ->
  exists before after,
    ledger r
    = Some (text_of f ++ before
            ++ (dumps (JObject [(str "prompt", JString prompt);
                                (str "model", JString (model resp));
                                (str "output", JNull)]) ++ [NL])
            ++ after).
Proof.
  intros Hin Hr Hc Hm.
  apply (requested_item_line cfg create prompts f index prompt _ Hin).
  apply (absent_content_written_as_null create _ index prompt resp first rest
           Hr Hc Hm).
Qed.

End Closing.

Lemma absent_content_recorded_as_null_witness :
  let r := process_prompts unlimited no_content_service four_prompts None in
  In (call_of (record_count None) (0%nat, str "a")) (submitted r)
  /\ exists before after,
       ledger r
       = Some (text_of None ++ before
               ++ (dumps (JObject [(str "prompt", JString (str "a"));
                                   (str "model", JString (str "gpt-4o"));
                                   (str "output", JNull)]) ++ [NL])
               ++ after).
Proof.
  cbv zeta.
  assert (Hin : In (call_of (record_count None) (0%nat, str "a"))
                  (submitted (process_prompts unlimited no_content_service
                                four_prompts None)))
    by (left; reflexivity).
  split; [exact Hin|].
  apply (absent_content_recorded_as_null unlimited no_content_service
           four_prompts None 0%nat (str "a") no_content _ [] Hin
           eq_refl eq_refl eq_refl).
Defined.
